(* ===== verification/_CoqProject ===== *)
-Q . S2P
Prelude.v
PyStr.v
World.v
Speech.v
Filter.v
Context.v
Session.v
Router.v
TurnLoop.v
