(* ===== verification/Prelude.v ===== *)
(** * Argon: a verification development of [src/Argon.py]

    Argon is a voice assistant written as one Python module.  Its
    main loop ([main], lines 242-277) listens for one utterance
    ([listen]), drops empty or noisy transcripts
    ([is_whisper_hallucination]), answers wake words and canned
    commands ([handle_wake_word], [handle_casual_commands]), and sends
    everything else to a language model run as a subprocess
    ([ask_gemma]).  The model's reply is spoken aloud through the shell
    ([speak]).  Four module-level globals hold the state:
    [conversation_history], [conversation_active], [is_speaking] and
    [interrupt_requested] (lines 16-19).

    ** Layout

    The library is one file per part of the program.  The list is in
    dependency order, as in [_CoqProject].
    - [Prelude] (this file): the Python effect monad [PyM] with its
      notation in [py_scope], the [argon] hint database, the shared
      tactics ([case_ifs], [div2_facts], [respects_tac], [total_tac]),
      and the list slice [lastn] (Python's [l[-n:]]) with its lemmas.
    - [PyStr]: the Python [str] builtins the code calls, in module
      [Str]: [lower], [strip], [split], [join], the [in] operator
      ([contains]) and character classes.  These are library code, not
      code of the repository.  They are translated from the Python
      language reference for ASCII text.
    - [World]: the four globals as the record [World], the output trace
      (what is printed and what is run with [os.system]), and
      [random.choice].
    - [Speech]: [speak] (lines 175-188) and the regular expression
      cleaning of line 180 ([clean_text]).
    - [Filter]: [is_whisper_hallucination] (lines 86-113) and [listen]
      (lines 41-84).  The audio capture and the Whisper transcription
      are oracles: a [capture] value says what they produced.
    - [Context]: the conversation history of [ask_gemma]: appending an
      exchange and keeping the last eight entries (lines 160-165), and
      rendering the last four into the prompt (lines 138-143).  The
      class [ContextWindow] is the contract the history offers the
      session: a FIFO of at most four (user, agent) pairs.  The flat
      list of the code is an instance of it (a refinement).
    - [Session]: [ask_gemma] (lines 115-173): building the prompt,
      running the backend with a 45 s deadline, and the three fallback
      replies.  The subprocess is an oracle [backend].
    - [Router]: [handle_wake_word] (lines 190-200) and
      [handle_casual_commands] (lines 202-240), and the pure
      classifier [route] that is their abstract specification.
    - [TurnLoop]: one iteration of the [while True] loop of [main]
      (lines 253-277) as [turn], the loop over a finite list of
      environment inputs as [main_loop], and the step relation of the
      loop with its reachable states and invariants.

    ** Effects

    The Python code mutates globals and raises exceptions.  [PyM S A]
    is a state and exception monad: a computation maps a state to a
    [result] ([Ok] value or [Raised] exception) and the new state.  An
    exception keeps the state changes made before it, as in Python.
    [try_except] is Python's [try]/[except].  Two predicates on
    computations carry most invariant proofs: [respects R m] (every
    run of [m], returning or raising, moves the state along the preorder
    [R]) and [total m] ([m] never raises); both are closed under [bind],
    and the tactics [respects_tac] and [total_tac] decompose a procedure
    into the calls it makes.

    ** Inputs, bounds and fuel

    The environment is explicit.  A [Filter.capture] says what the
    microphone and Whisper did; [Session.backend_result] what the
    [ollama] process did with the prompt it was given; a [World.clock]
    holds the [strftime] strings; [random.choice] takes an index drawn
    by the environment ([nth (r mod len)]).  [TurnLoop.env] bundles
    them per iteration.  The [while True] loop of [main] has no bound;
    [TurnLoop.main_loop] runs it over a finite list of inputs, the list
    being the fuel.  That is enough: every theorem about the loop is
    about finitely many iterations, and [main_loop_exits] shows that an
    exit utterance ends the loop whatever follows it.  The history bound
    (eight entries, four exchanges) and the prompt window (four entries)
    are the code's constants, kept as such.

    ** Theorems (the claims C1-C19 of PROJECT.json)

    - Turn loop ([TurnLoop]): a turn refines the classifier [route]
      (C1); reachable states keep the history well formed and playback
      idle (C3, by rule induction on [reachable]); a turn raises exactly
      on a capture failure, which then ends the program (C6); the loop
      ends at the first exit utterance (C7); [conversation_active] is
      never cleared (C15).
    - Session ([Session]): [ask_gemma] refines the abstract session
      [dialogue_outcome] on every backend outcome (C2); a timeout keeps
      the history (C14).
    - Context window ([Context]): from the empty history, the history
      holds the last four exchanges (C4, proved through the
      [ContextWindow] class and the flat instance's refinement of the
      pair window); a fifth exchange evicts the oldest (C13); the prompt
      shows the last two, correctly labelled (C12).
    - Filter ([Filter]): exactly what [listen] accepts (C5) and the
      exact state it leaves (C18); artifact phrases are rejected in any
      case and position (C9); the repetition test fires only on an even
      number of words with equal halves (C10), so the specification's
      split of odd counts agrees with the code's (C11).
    - Speech ([Speech]): the shell command has one literal argument
      (C8); a leading dash survives into that argument (C19).
    - Router ([Router]): the wake test is "contains argon" (C16); an
      utterance containing ["time"] is answered with the time and never
      exits (C17).

    ** Plan for the next steps

    1. An interaction-tree model of [main] (events for listening, the
       backend, the clock, random choice and output), with [main_loop]
       proved equal to its interpretation over a finite input, and a
       Paco proof that the loop without an exit input never terminates.
    2. Exact traces: what a turn prints and sends to [say] for each
       action of [route], and that canned turns never consult the
       backend.
    3. The prompt: [build_prompt] contains the system prompt with the
       time and date, the last two exchanges and the new utterance, and
       nothing else.
    4. [clean_text] as a filter (idempotent, order preserving) and the
       character classes on Latin-1 code points.

    ** What is not modelled

    The Whisper model and the microphone (opaque: [capture]), the
    [ollama] process (opaque: [backend]), the clock ([strftime] gives
    the strings of a [clock] record), the [say] program, and
    [random] (an index chosen by the environment).  Strings are
    modelled as ASCII: Python's Unicode case mapping and character
    classes are only modelled on code points below 128.
*)

From Stdlib Require Import String Ascii List Bool Arith Lia RelationClasses.
Import ListNotations.

Declare Scope py_scope.
Delimit Scope py_scope with py.

(** ** Python exceptions and the effect monad *)

(** The exceptions the code raises or catches: [sr.WaitTimeoutError]
    (line 56), [subprocess.TimeoutExpired] (line 170) and any other
    [Exception] (an [OSError] from the microphone, the file system or
    the process launch). *)
Inductive exn : Type :=
| WaitTimeoutError
| TimeoutExpired
| OtherException.

Inductive result (A : Type) : Type :=
| Ok (a : A)
| Raised (e : exn).
Arguments Ok {A} a.
Arguments Raised {A} e.

Definition PyM (S A : Type) : Type := S -> result A * S.

Section Monad.
Context {S : Type}.

Definition ret {A} (a : A) : PyM S A := fun s => (Ok a, s).

Definition bind {A B} (m : PyM S A) (k : A -> PyM S B) : PyM S B :=
  fun s =>
    match m s with
    | (Ok a, s') => k a s'
    | (Raised e, s') => (Raised e, s')
    end.

Definition raise {A} (e : exn) : PyM S A := fun s => (Raised e, s).

(** [try: m except: h] : the handler sees the state the exception
    left. *)
Definition try_except {A} (m : PyM S A) (h : exn -> PyM S A) : PyM S A :=
  fun s =>
    match m s with
    | (Raised e, s') => h e s'
    | r => r
    end.

Definition read_state : PyM S S := fun s => (Ok s, s).
Definition write_state (s : S) : PyM S unit := fun _ => (Ok tt, s).
Definition modify (f : S -> S) : PyM S unit := fun s => (Ok tt, f s).
End Monad.

Lemma bind_Ok {S A B} (m : PyM S A) (k : A -> PyM S B) s a s1 :
  m s = (Ok a, s1) -> bind m k s = k a s1.
Proof. intros H. unfold bind. now rewrite H. Qed.

Lemma bind_Raised {S A B} (m : PyM S A) (k : A -> PyM S B) s e s1 :
  m s = (Raised e, s1) -> bind m k s = (Raised e, s1).
Proof. intros H. unfold bind. now rewrite H. Qed.

Notation "x <- m ;; k" := (bind m (fun x => k))
  (at level 61, m at next level, right associativity) : py_scope.
Notation "m ;; k" := (bind m (fun _ => k))
  (at level 61, right associativity) : py_scope.

Open Scope py_scope.

(** ** Computations that move the state along a preorder

    [respects R m]: every run of [m], returning or raising, ends in a
    state [R]-related to the one it started in.  With [R] a preorder the
    property is closed under [bind], so an invariant of a whole
    procedure follows from its leaves. *)

Definition respects {S A} (R : S -> S -> Prop) (m : PyM S A) : Prop :=
  forall s r s', m s = (r, s') -> R s s'.

Section Respects.
Context {S : Type} (R : S -> S -> Prop) `{PreOrder S R}.

Lemma respects_ret {A} (a : A) : respects R (ret a).
Proof. intros s r s' [= _ <-]. reflexivity. Qed.

Lemma respects_raise {A} e : respects R (@raise S A e).
Proof. intros s r s' [= _ <-]. reflexivity. Qed.

Lemma respects_read_state : respects R read_state.
Proof. intros s r s' [= _ <-]. reflexivity. Qed.

Lemma respects_modify f : (forall s, R s (f s)) -> respects R (modify f).
Proof. intros Hf s r s' [= _ <-]. apply Hf. Qed.

Lemma respects_bind {A B} (m : PyM S A) (k : A -> PyM S B) :
  respects R m -> (forall a, respects R (k a)) -> respects R (bind m k).
Proof.
  intros Hm Hk s r s'. unfold bind.
  destruct (m s) as [[a | e] s1] eqn:E; intros Hrun.
  - transitivity s1; [exact (Hm _ _ _ E) | exact (Hk a _ _ _ Hrun)].
  - injection Hrun as _ <-. exact (Hm _ _ _ E).
Qed.

Lemma respects_try_except {A} (m : PyM S A) (h : exn -> PyM S A) :
  respects R m -> (forall e, respects R (h e)) -> respects R (try_except m h).
Proof.
  intros Hm Hh s r s'. unfold try_except.
  destruct (m s) as [[a | e] s1] eqn:E; intros Hrun.
  - injection Hrun as _ <-. exact (Hm _ _ _ E).
  - transitivity s1; [exact (Hm _ _ _ E) | exact (Hh e _ _ _ Hrun)].
Qed.
End Respects.

(** ** Python's negative slice [l[-n:]] *)

Definition lastn {A} (n : nat) (l : list A) : list A :=
  skipn (length l - n) l.

Create HintDb argon discriminated.

Section Lastn.
Context {A : Type}.
Implicit Types l : list A.

Lemma lastn_length n l : length (lastn n l) = Nat.min n (length l).
Proof. unfold lastn. rewrite length_skipn. lia. Qed.

Lemma lastn_all n l : length l <= n -> lastn n l = l.
Proof.
  intros H. unfold lastn. replace (length l - n) with 0 by lia. reflexivity.
Qed.

Lemma lastn_suffix n l : exists p, l = p ++ lastn n l.
Proof. exists (firstn (length l - n) l). symmetry. apply firstn_skipn. Qed.

Lemma lastn_app_r n l1 l2 :
  length l2 <= n -> exists p, lastn n (l1 ++ l2) = p ++ l2.
Proof.
  intros H. unfold lastn. rewrite length_app.
  exists (skipn (length l1 + length l2 - n) l1).
  rewrite skipn_app. f_equal.
  replace (length l1 + length l2 - n - length l1) with 0 by lia.
  reflexivity.
Qed.

Lemma lastn_lastn m n l : m <= n -> lastn m (lastn n l) = lastn m l.
Proof.
  intros H. unfold lastn. rewrite length_skipn, skipn_skipn. f_equal. lia.
Qed.

Lemma lastn_app_long n l1 l2 :
  n <= length l2 -> lastn n (l1 ++ l2) = lastn n l2.
Proof.
  intros H. unfold lastn. rewrite length_app, skipn_app.
  replace (length l1 + length l2 - n) with (length l1 + (length l2 - n)) by lia.
  rewrite skipn_all2 by lia. simpl.
  f_equal. lia.
Qed.
Lemma Forall_firstn (P : A -> Prop) n l : Forall P l -> Forall P (firstn n l).
Proof.
  revert l; induction n as [|n IH]; intros [|x l] H; simpl; auto.
  inversion H; subst. constructor; auto.
Qed.

Lemma Forall_skipn (P : A -> Prop) n l : Forall P l -> Forall P (skipn n l).
Proof.
  revert l; induction n as [|n IH]; intros [|x l] H; simpl; auto.
  inversion H; subst. auto.
Qed.
End Lastn.

#[export] Hint Resolve Forall_firstn Forall_skipn : argon.

Create Rewrite HintDb argon_rw.
#[export] Hint Rewrite @lastn_length : argon_rw.


(** ** Tactics *)

(** Case on every [if] of the goal, innermost conditions first. *)
Ltac case_ifs :=
  repeat match goal with
  | |- context [if ?b then _ else _] => destruct b eqn:?
  end.

(** Give [lia] the Euclidean facts of [n / 2]. *)
Ltac div2_facts n :=
  pose proof (Nat.div_mod n 2 ltac:(discriminate));
  pose proof (Nat.mod_upper_bound n 2 ltac:(discriminate)).

Lemma lastn_lastn_app {A} n (l r : list A) :
  lastn n (lastn n l ++ r) = lastn n (l ++ r).
Proof.
  destruct (Nat.le_gt_cases n (length (lastn n l ++ r))) as [Hle | Hlt].
  - destruct (lastn_suffix n l) as [p Hp].
    rewrite Hp at 2. rewrite <- app_assoc, (lastn_app_long n p _ Hle). reflexivity.
  - rewrite length_app, lastn_length in Hlt.
    assert (length l < n) by lia.
    now rewrite (lastn_all n l) by lia.
Qed.

(** Decompose a [respects] goal along the structure of the program;
    [leaf] closes the calls the program makes to other components. *)
Ltac respects_tac leaf :=
  repeat first
    [ leaf
    | apply respects_bind; [typeclasses eauto|..]; [|intros ?]
    | apply respects_try_except; [typeclasses eauto|..]; [|intros ?]
    | apply respects_ret; typeclasses eauto
    | apply respects_raise; typeclasses eauto
    | apply respects_read_state; typeclasses eauto
    | match goal with
      | |- respects _ (if ?b then _ else _) => destruct b
      | |- respects _ (match ?x with _ => _ end) => destruct x
      end ].

(** ** Computations that never raise *)

Definition total {S A} (m : PyM S A) : Prop :=
  forall s, exists a s', m s = (Ok a, s').

Section Total.
Context {S : Type}.

Lemma total_ret {A} (a : A) : total (S := S) (ret a).
Proof. intros s. exists a, s. reflexivity. Qed.

Lemma total_read_state : total (S := S) read_state.
Proof. intros s. exists s, s. reflexivity. Qed.

Lemma total_modify f : total (S := S) (modify f).
Proof. intros s. exists tt, (f s). reflexivity. Qed.

Lemma total_bind {A B} (m : PyM S A) (k : A -> PyM S B) :
  total m -> (forall a, total (k a)) -> total (bind m k).
Proof.
  intros Hm Hk s. destruct (Hm s) as (a & s1 & E).
  rewrite (bind_Ok _ _ _ _ _ E). apply Hk.
Qed.
End Total.

Ltac total_tac leaf :=
  repeat first
    [ leaf
    | apply total_bind; [|intros ?]
    | apply total_ret
    | apply total_read_state
    | apply total_modify
    | match goal with
      | |- total (if ?b then _ else _) => destruct b
      | |- total (match ?x with _ => _ end) => destruct x
      end ].
