(* ===== verification/PyStr.v ===== *)
(** * PyStr: the Python [str] builtins Argon calls

    Module [Str] translates, for ASCII text, the string operations of
    the Python library that [src/Argon.py] uses: [str.lower],
    [str.strip], [str.split] (no argument), [str.join], the [in]
    operator on strings ([contains]) and the character classes
    [\s] and [\w] of the [re] module.  Whitespace is what
    [str.isspace] accepts below code point 128: tab, line feed,
    vertical tab, form feed, carriage return, the separators 28-31,
    and space.  This is also the set [str.split] and [\s] use.

    The lemmas are the ones the components share: substring search
    ([contains_spec]), case mapping, stripping, and the round trip
    between [split] and [join " "] on words without whitespace. *)

From S2P Require Import Prelude.
From Stdlib Require Import String Ascii List Bool Arith Lia.
Import ListNotations.

Module Str.

(** ** Character classes *)

Definition is_space (c : ascii) : bool :=
  let n := nat_of_ascii c in
  ((9 <=? n) && (n <=? 13)) || ((28 <=? n) && (n <=? 32)).

Definition is_upper (c : ascii) : bool :=
  let n := nat_of_ascii c in (65 <=? n) && (n <=? 90).

Definition is_lower (c : ascii) : bool :=
  let n := nat_of_ascii c in (97 <=? n) && (n <=? 122).

Definition is_digit (c : ascii) : bool :=
  let n := nat_of_ascii c in (48 <=? n) && (n <=? 57).

(** [\w] : letters, digits and the underscore. *)
Definition is_word (c : ascii) : bool :=
  is_upper c || is_lower c || is_digit c || Ascii.eqb c "_"%char.

Fixpoint all_chars (f : ascii -> bool) (s : string) : bool :=
  match s with
  | EmptyString => true
  | String c s' => f c && all_chars f s'
  end.

Definition is_empty (s : string) : bool :=
  match s with EmptyString => true | String _ _ => false end.

(** ** [str.lower] *)

Definition lower_char (c : ascii) : ascii :=
  if is_upper c then ascii_of_nat (nat_of_ascii c + 32) else c.

Fixpoint lower (s : string) : string :=
  match s with
  | EmptyString => EmptyString
  | String c s' => String (lower_char c) (lower s')
  end.

Local Open Scope string_scope.

(** ** [str.strip] *)

Fixpoint lstrip (s : string) : string :=
  match s with
  | String c s' => if is_space c then lstrip s' else s
  | EmptyString => EmptyString
  end.

Fixpoint rstrip (s : string) : string :=
  match s with
  | EmptyString => EmptyString
  | String c s' =>
      let r := rstrip s' in
      if is_space c && is_empty r then EmptyString else String c r
  end.

Definition strip (s : string) : string := rstrip (lstrip s).

(** ** [str.split()] and [sep.join] *)

(** [split_go s] is the word being read at the front of [s] and the
    words after it. *)
Fixpoint split_go (s : string) : string * list string :=
  match s with
  | EmptyString => (EmptyString, [])
  | String c s' =>
      let (w, ws) := split_go s' in
      if is_space c then (EmptyString, if is_empty w then ws else w :: ws)
      else (String c w, ws)
  end.

Definition split (s : string) : list string :=
  let (w, ws) := split_go s in if is_empty w then ws else w :: ws.

Fixpoint join (sep : string) (ws : list string) : string :=
  match ws with
  | [] => EmptyString
  | [w] => w
  | w :: ws' => w ++ sep ++ join sep ws'
  end.

(** ** [p in s] *)

Fixpoint startswith (p s : string) : bool :=
  match p, s with
  | EmptyString, _ => true
  | String a p', String b s' => Ascii.eqb a b && startswith p' s'
  | String _ _, EmptyString => false
  end.

Fixpoint contains (p s : string) : bool :=
  startswith p s ||
  match s with
  | EmptyString => false
  | String _ s' => contains p s'
  end.

(** A word as [split] produces it: not empty, no whitespace. *)
Definition no_space (w : string) : bool := all_chars (fun c => negb (is_space c)) w.

Definition word_ok (w : string) : bool := negb (is_empty w) && no_space w.

(** ** Lemmas *)

Lemma append_assoc (a b c : string) : a ++ (b ++ c) = (a ++ b) ++ c.
Proof. induction a; simpl; congruence. Qed.

Lemma append_empty_r (a : string) : a ++ "" = a.
Proof. induction a; simpl; congruence. Qed.

Lemma length_append (a b : string) :
  String.length (a ++ b) = String.length a + String.length b.
Proof. induction a; simpl; auto. Qed.

Lemma startswith_spec p s :
  startswith p s = true <-> exists r, s = p ++ r.
Proof.
  revert s; induction p as [|a p IH]; intros [|b s]; simpl.
  - split; eauto.
  - split; eauto.
  - split; [discriminate | intros [r Hr]; discriminate].
  - rewrite andb_true_iff, Ascii.eqb_eq, IH. split.
    + intros [-> [r ->]]. eauto.
    + intros [r Hr]. injection Hr as -> ->. eauto.
Qed.

Lemma contains_spec p s :
  contains p s = true <-> exists a b, s = a ++ p ++ b.
Proof.
  induction s as [|c s IH]; simpl; rewrite orb_true_iff, startswith_spec.
  - split.
    + intros [[r Hr] | H]; [exists EmptyString, r; exact Hr | discriminate].
    + intros [[|x a] [b Hb]]; [left; eauto | discriminate].
  - rewrite IH. split.
    + intros [[r Hr] | [a [b Hab]]].
      * exists EmptyString, r. exact Hr.
      * exists (String c a), b. simpl. congruence.
    + intros [[|x a] [b Hb]].
      * left. eauto.
      * right. injection Hb as -> ->. eauto.
Qed.

Lemma contains_app p a s b : contains p s = true -> contains p (a ++ s ++ b) = true.
Proof.
  rewrite !contains_spec. intros [x [y ->]].
  exists (a ++ x), (y ++ b). rewrite !append_assoc. reflexivity.
Qed.

Lemma contains_trans p q s :
  contains p q = true -> contains q s = true -> contains p s = true.
Proof.
  rewrite !contains_spec. intros [a [b ->]] [c [d ->]].
  exists (c ++ a), (b ++ d). rewrite !append_assoc. reflexivity.
Qed.

Lemma contains_refl p : contains p p = true.
Proof. apply contains_spec. exists EmptyString, EmptyString. now rewrite append_empty_r. Qed.

Lemma lower_app a b : lower (a ++ b) = lower a ++ lower b.
Proof. induction a; simpl; congruence. Qed.

Lemma lower_length s : String.length (lower s) = String.length s.
Proof. induction s; simpl; auto. Qed.

Lemma lower_char_idem c : lower_char (lower_char c) = lower_char c.
Proof. destruct c as [[] [] [] [] [] [] [] []]; reflexivity. Qed.

Lemma lower_idem s : lower (lower s) = lower s.
Proof. induction s; simpl; [reflexivity | rewrite lower_char_idem; congruence]. Qed.

(** Every character of a lowered string is not upper case. *)
Lemma lower_char_not_upper c : is_upper (lower_char c) = false.
Proof. destruct c as [[] [] [] [] [] [] [] []]; reflexivity. Qed.

Lemma lstrip_head s :
  match lstrip s with EmptyString => True | String c _ => is_space c = false end.
Proof.
  induction s as [|c s IH]; simpl; auto.
  destruct (is_space c) eqn:E; simpl; auto.
Qed.

Lemma rstrip_app_space s :
  all_chars is_space s = true -> rstrip s = EmptyString.
Proof.
  induction s as [|c s IH]; simpl; auto.
  intros [Hc Hs]%andb_true_iff. rewrite IH, Hc by exact Hs. reflexivity.
Qed.



(** *** [strip] *)

Lemma is_empty_true s : is_empty s = true -> s = EmptyString.
Proof. destruct s; [reflexivity | discriminate]. Qed.

Lemma is_empty_app a b : is_empty (a ++ b) = is_empty a && is_empty b.
Proof. destruct a; reflexivity. Qed.

Lemma lstrip_app a s :
  lstrip (a ++ s) = if is_empty (lstrip a) then lstrip s else lstrip a ++ s.
Proof.
  induction a as [|c a IH]; simpl; [reflexivity|].
  destruct (is_space c); [exact IH | reflexivity].
Qed.

Lemma rstrip_app s b :
  rstrip (s ++ b) = if is_empty (rstrip b) then rstrip s else s ++ rstrip b.
Proof.
  induction s as [|c s IH]; simpl.
  - destruct (is_empty (rstrip b)) eqn:E; [now apply is_empty_true | reflexivity].
  - rewrite IH. destruct (is_empty (rstrip b)) eqn:E; [reflexivity|].
    rewrite is_empty_app, E, andb_false_r, andb_false_r. reflexivity.
Qed.

(** A string that [strip] leaves alone survives inside any text:
    stripping [a ++ p ++ b] keeps [p] whole. *)
Lemma strip_inner a p b :
  p <> EmptyString -> lstrip p = p -> rstrip p = p ->
  exists x y, strip (a ++ p ++ b) = x ++ p ++ y.
Proof.
  intros Hne Hl Hr. unfold strip.
  assert (Hp : is_empty p = false) by (destruct p; [congruence | reflexivity]).
  assert (HL : exists x, lstrip (a ++ p ++ b) = x ++ p ++ b).
  { rewrite lstrip_app, (lstrip_app p), Hl, Hp.
    destruct (is_empty (lstrip a)); [exists EmptyString | exists (lstrip a)]; reflexivity. }
  destruct HL as [x ->]. rewrite append_assoc, rstrip_app, rstrip_app, Hr, Hp.
  destruct (is_empty (rstrip b)).
  - exists x, EmptyString. now rewrite append_empty_r.
  - exists x, (rstrip b). now rewrite append_assoc.
Qed.

Lemma lstrip_shorter s : lstrip s = s \/ String.length (lstrip s) < String.length s.
Proof.
  induction s as [|c s IH]; simpl; [now left|].
  destruct (is_space c); [|now left]. right. destruct IH as [-> | H]; lia.
Qed.

Lemma rstrip_shorter s : rstrip s = s \/ String.length (rstrip s) < String.length s.
Proof.
  induction s as [|c s IH]; simpl; [now left|].
  destruct (is_space c && is_empty (rstrip s)); [right; simpl; lia|].
  destruct IH as [-> | H]; [now left | right; simpl; lia].
Qed.

Lemma is_space_lower_char c : is_space (lower_char c) = is_space c.
Proof. destruct c as [[] [] [] [] [] [] [] []]; reflexivity. Qed.

Lemma is_empty_lower s : is_empty (lower s) = is_empty s.
Proof. destruct s; reflexivity. Qed.

Lemma lstrip_lower s : lstrip (lower s) = lower (lstrip s).
Proof.
  induction s as [|c s IH]; simpl; [reflexivity|].
  rewrite is_space_lower_char. destruct (is_space c); [exact IH | reflexivity].
Qed.

Lemma rstrip_lower s : rstrip (lower s) = lower (rstrip s).
Proof.
  induction s as [|c s IH]; simpl; [reflexivity|].
  rewrite IH, is_space_lower_char, is_empty_lower.
  destruct (is_space c && is_empty (rstrip s)); reflexivity.
Qed.

(** If the lower-case form of [s] has no surrounding whitespace,
    neither has [s]. *)
Lemma strip_fixed_lower s :
  lstrip (lower s) = lower s -> rstrip (lower s) = lower s ->
  lstrip s = s /\ rstrip s = s.
Proof.
  rewrite lstrip_lower, rstrip_lower. intros Hl Hr. split.
  - destruct (lstrip_shorter s) as [H | H]; [exact H|].
    apply (f_equal String.length) in Hl. rewrite !lower_length in Hl. lia.
  - destruct (rstrip_shorter s) as [H | H]; [exact H|].
    apply (f_equal String.length) in Hr. rewrite !lower_length in Hr. lia.
Qed.


Lemma lstrip_idem s : lstrip (lstrip s) = lstrip s.
Proof.
  induction s as [|c s IH]; simpl; [reflexivity|].
  destruct (is_space c) eqn:E; [exact IH | simpl; now rewrite E].
Qed.

Lemma rstrip_idem s : rstrip (rstrip s) = rstrip s.
Proof.
  induction s as [|c s IH]; simpl; [reflexivity|].
  destruct (is_space c && is_empty (rstrip s)) eqn:E; [reflexivity|].
  simpl. rewrite IH, E. reflexivity.
Qed.

Lemma rstrip_empty_lstrip s : is_empty (rstrip s) = true -> lstrip s = EmptyString.
Proof.
  induction s as [|c s IH]; simpl; [reflexivity|].
  destruct (is_space c) eqn:E; simpl; [|discriminate].
  destruct (is_empty (rstrip s)) eqn:E2; [intros _; now apply IH | discriminate].
Qed.




Lemma lstrip_rstrip s : lstrip (rstrip s) = rstrip (lstrip s).
Proof.
  induction s as [|c s IH]; simpl; [reflexivity|].
  destruct (is_space c) eqn:E; simpl.
  - destruct (is_empty (rstrip s)) eqn:E2; simpl.
    + now rewrite (rstrip_empty_lstrip s E2).
    + rewrite ?E. exact IH.
  - simpl. rewrite ?E. reflexivity.
Qed.

(** [str.strip] is idempotent. *)
Lemma strip_idem s : strip (strip s) = strip s.
Proof. unfold strip. now rewrite lstrip_rstrip, lstrip_idem, rstrip_idem. Qed.

(** *** [split] and [join " "] *)


Lemma split_go_word w rest :
  no_space w = true ->
  split_go (w ++ rest) = let (x, xs) := split_go rest in (w ++ x, xs).
Proof.
  induction w as [|c w IH]; simpl; intros H.
  - destruct (split_go rest); reflexivity.
  - apply andb_true_iff in H as [Hc Hw]. rewrite (IH Hw).
    destruct (split_go rest) as [x xs]. apply negb_true_iff in Hc. now rewrite Hc.
Qed.

Lemma split_go_space c rest :
  is_space c = true -> split_go (String c rest) = (EmptyString, split rest).
Proof.
  intros Hc. unfold split. simpl. destruct (split_go rest). now rewrite Hc.
Qed.

Lemma split_go_join w ws :
  Forall (fun v => word_ok v = true) (w :: ws) ->
  split_go (join " " (w :: ws)) = (w, ws).
Proof.
  revert w; induction ws as [|w2 ws IH]; intros w Hok;
    apply Forall_cons_iff in Hok as [Hw Hok];
    apply andb_true_iff in Hw as [Hne Hw].
  - change (join " " [w]) with w.
    rewrite <- (append_empty_r w) at 1. rewrite (split_go_word _ _ Hw). simpl.
    now rewrite append_empty_r.
  - change (join " " (w :: w2 :: ws)) with (w ++ String " " (join " " (w2 :: ws))).
    rewrite (split_go_word _ _ Hw), split_go_space by reflexivity.
    unfold split. rewrite (IH _ Hok), append_empty_r.
    apply Forall_cons_iff in Hok as [Hw2 _].
    apply andb_true_iff in Hw2 as [Hne2 _]. apply negb_true_iff in Hne2.
    now rewrite Hne2.
Qed.

(** The round trip: [" ".join(ws).split() == ws] when every word is
    one [split] could produce. *)
Lemma split_join ws :
  Forall (fun v => word_ok v = true) ws -> split (join " " ws) = ws.
Proof.
  destruct ws as [|w ws]; [reflexivity|]. intros Hok.
  unfold split. rewrite (split_go_join _ _ Hok).
  apply Forall_cons_iff in Hok as [Hw _].
  apply andb_true_iff in Hw as [Hne _]. apply negb_true_iff in Hne.
  now rewrite Hne.
Qed.

Lemma join_inj a b :
  Forall (fun v => word_ok v = true) a ->
  Forall (fun v => word_ok v = true) b ->
  join " " a = join " " b -> a = b.
Proof.
  intros Ha Hb E. rewrite <- (split_join a Ha), <- (split_join b Hb). now f_equal.
Qed.

Lemma split_go_ok s :
  let (w, ws) := split_go s in
  no_space w = true /\ Forall (fun v => word_ok v = true) ws.
Proof.
  induction s as [|c s IH]; simpl; [split; [reflexivity | constructor]|].
  destruct (split_go s) as [w ws]. destruct IH as [Hw Hws].
  destruct (is_space c) eqn:Ec.
  - split; [reflexivity|]. destruct (is_empty w) eqn:Ew; [exact Hws|].
    constructor; [|exact Hws]. unfold word_ok. now rewrite Ew, Hw.
  - split; [|exact Hws]. unfold no_space. cbn [all_chars]. rewrite Ec. exact Hw.
Qed.

(** Every word [str.split()] returns is non-empty and has no
    whitespace. *)
Lemma split_ok s : Forall (fun v => word_ok v = true) (split s).
Proof.
  unfold split. pose proof (split_go_ok s) as H.
  destruct (split_go s) as [w ws]. destruct H as [Hw Hws].
  destruct (is_empty w) eqn:Ew; [exact Hws|].
  constructor; [|exact Hws]. unfold word_ok. now rewrite Ew, Hw.
Qed.

#[export] Hint Resolve split_ok : argon.

End Str.
