(* ===== verification/World.v ===== *)
(** * World: the globals of [src/Argon.py] and the observable output

    [World] holds the four module-level globals of lines 16-19 and the
    output trace: every [print] (standard output) and every
    [os.system] command, in order.  [M] is the effect monad of the
    program, [PyM World].  Setters are one per global; [choice] is
    [random.choice] with the index the random source drew. *)

From S2P Require Import Prelude PyStr.
From Stdlib Require Import String Ascii List Bool Arith Lia.
Import ListNotations.

Inductive event : Type :=
| Print (line : string)      (** [print(line)] *)
| System (cmd : string).     (** [os.system(cmd)] *)

Record World : Type := mkWorld {
  conversation_history : list string;
  conversation_active : bool;
  is_speaking : bool;
  interrupt_requested : bool;
  out : list event
}.

Abbreviation M := (PyM World).

(** Lines 16-19; the trace starts empty. *)
Definition init_world : World :=
  mkWorld [] false false false [].

Definition set_history (h : list string) (w : World) : World :=
  mkWorld h (conversation_active w) (is_speaking w) (interrupt_requested w) (out w).
Definition set_active (b : bool) (w : World) : World :=
  mkWorld (conversation_history w) b (is_speaking w) (interrupt_requested w) (out w).
Definition set_speaking (b : bool) (w : World) : World :=
  mkWorld (conversation_history w) (conversation_active w) b (interrupt_requested w) (out w).
Definition set_interrupt (b : bool) (w : World) : World :=
  mkWorld (conversation_history w) (conversation_active w) (is_speaking w) b (out w).
Definition emit (e : event) (w : World) : World :=
  mkWorld (conversation_history w) (conversation_active w) (is_speaking w)
    (interrupt_requested w) (out w ++ [e]).

Definition print (line : string) : M unit := modify (emit (Print line)).
Definition os_system (cmd : string) : M unit := modify (emit (System cmd)).

(** [random.choice(xs)]: [xs[r]] for the index [r < len(xs)] the
    random source draws; an empty sequence raises [IndexError]. *)
Definition choice (xs : list string) (r : nat) : M string :=
  match xs with
  | [] => raise OtherException
  | _ => ret (nth (r mod length xs) xs EmptyString)
  end.

(** The catalogs of lines 22-39. *)
Definition WAKE_RESPONSES : list string :=
  ["Hello."; "Ready."; "Yes?"; "I'm here."]%string.

Definition THINKING_RESPONSES : list string :=
  ["Thinking..."; "Processing..."; "One moment..."]%string.

Definition CONVERSATION_STARTERS : list string :=
  ["How can I help?"; "What do you need?"; "Ask me anything."]%string.

(** The strings [datetime.now().strftime(...)] returns for the
    formats the code uses. *)
Record clock : Type := mkClock {
  time_I_M_p : string;     (** ["%I:%M %p"] *)
  date_A_B_d_Y : string;   (** ["%A, %B %d, %Y"] *)
  date_A_B_d : string      (** ["%A, %B %d"] *)
}.

Lemma choice_in xs r w :
  xs <> [] -> exists x, choice xs r w = (Ok x, w) /\ In x xs.
Proof.
  intros Hne. destruct xs as [|y ys]; [congruence|].
  eexists. split; [reflexivity|]. apply nth_In.
  apply Nat.mod_upper_bound. simpl. lia.
Qed.

Lemma emit_history e w : conversation_history (emit e w) = conversation_history w.
Proof. reflexivity. Qed.
Lemma emit_active e w : conversation_active (emit e w) = conversation_active w.
Proof. reflexivity. Qed.
Lemma emit_out e w : out (emit e w) = out w ++ [e].
Proof. reflexivity. Qed.

Create Rewrite HintDb world_rw.
#[export] Hint Rewrite emit_history emit_active emit_out : world_rw.
