(* ===== verification/Speech.v ===== *)
(** * Speech: [speak] (src/Argon.py, lines 175-188)

    [speak] prints the reply, removes every character outside
    [[\w\s.,!?\-]] (line 180, [clean_text]), sets [is_speaking] and
    clears [interrupt_requested], runs [say "<clean text>"] through the
    shell, and clears [is_speaking].  The theorems show what the shell
    receives: a double-quoted argument with none of the characters the
    shell expands inside double quotes. *)

From S2P Require Import Prelude PyStr World.
From Stdlib Require Import String Ascii List Bool Arith Lia.
Import ListNotations.

Local Open Scope string_scope.

(** The class [[\w\s.,!?\-]] of the pattern of line 180. *)
Definition keep_char (c : ascii) : bool :=
  Str.is_word c || Str.is_space c || Str.contains (String c EmptyString) ".,!?-".

(** [re.sub(r'[^\w\s.,!?\-]', '', text)]: each character outside the
    class is replaced by the empty string. *)
Fixpoint clean_text (text : string) : string :=
  match text with
  | EmptyString => EmptyString
  | String c rest => if keep_char c then String c (clean_text rest) else clean_text rest
  end.

Definition dquote : string := String (ascii_of_nat 34) EmptyString.

(** The command of line 186: [f'say "{clean_text}"']. *)
Definition say_command (clean : string) : string :=
  "say " ++ dquote ++ clean ++ dquote.

Definition speak (text : string) : M unit :=
  print ("Argon: " ++ text) ;;
  let clean := clean_text text in
  modify (set_speaking true) ;;
  modify (set_interrupt false) ;;
  os_system (say_command clean) ;;
  modify (set_speaking false).

(** The characters a POSIX shell interprets inside double quotes:
    the quote itself, [$], the backquote and the backslash. *)
Definition shell_special (c : ascii) : bool :=
  existsb (fun n => Nat.eqb (nat_of_ascii c) n) [34; 36; 96; 92].

(** ** Lemmas *)

Lemma keep_char_not_special c : keep_char c = true -> shell_special c = false.
Proof. destruct c as [[] [] [] [] [] [] [] []]; vm_compute; congruence. Qed.

Lemma clean_text_kept s : Str.all_chars keep_char (clean_text s) = true.
Proof.
  induction s as [|c s IH]; simpl; [reflexivity|].
  destruct (keep_char c) eqn:E; simpl; [rewrite E|]; assumption.
Qed.

Lemma all_chars_impl (f g : ascii -> bool) s :
  (forall c, f c = true -> g c = true) ->
  Str.all_chars f s = true -> Str.all_chars g s = true.
Proof.
  intros Hfg. induction s as [|c s IH]; simpl; [reflexivity|].
  intros [Hc Hs]%andb_true_iff. now rewrite (Hfg c Hc), (IH Hs).
Qed.

(** [clean_text] is the identity on text that needs no cleaning. *)
Lemma clean_text_id s : Str.all_chars keep_char s = true -> clean_text s = s.
Proof.
  induction s as [|c s IH]; simpl; [reflexivity|].
  intros [Hc Hs]%andb_true_iff. rewrite Hc. f_equal. now apply IH.
Qed.

(** The whole effect of [speak]: the flags end cleared, the history
    and [conversation_active] are untouched, and the trace grows by
    the printed line and the [say] command. *)
Lemma speak_spec text w :
  speak text w =
  (Ok tt, mkWorld (conversation_history w) (conversation_active w) false false
            (out w ++ [Print ("Argon: " ++ text); System (say_command (clean_text text))])).
Proof. destruct w. cbv [speak bind modify print os_system emit set_speaking set_interrupt]. simpl. now rewrite <- app_assoc. Qed.

(** C8 [speak_shell_safe]: [speak] always succeeds, clears
    [is_speaking] and [interrupt_requested], keeps the history and the
    active flag, prints the reply, and runs exactly one shell command
    [say "<arg>"] whose argument holds only characters of
    [[\w\s.,!?\-]], so none of the characters the shell interprets
    inside double quotes (the quote, [$], the backquote, the
    backslash): whatever the language model answers, the command runs
    [say] with one literal argument. *)
Theorem speak_shell_safe text w :
  exists arg,
    speak text w =
    (Ok tt, mkWorld (conversation_history w) (conversation_active w) false false
              (out w ++ [Print ("Argon: " ++ text); System (say_command arg)])) /\
    Str.all_chars keep_char arg = true /\
    Str.all_chars (fun c => negb (shell_special c)) arg = true.
Proof.
  exists (clean_text text). split; [apply speak_spec|]. split; [apply clean_text_kept|].
  eapply all_chars_impl; [|apply clean_text_kept].
  intros c Hc. now rewrite keep_char_not_special.
Qed.

(** C19 [speak_dash_option]: the class of line 180 keeps ['-'], so for
    every reply that starts with a dash (a bulleted answer, say) the one
    argument [speak] passes to [say] starts with a dash too: the dash is
    never removed or escaped.  Whether [say] then reads the argument as
    an option is outside the model. *)
Theorem speak_dash_option rest w :
  speak (String "-" rest) w =
  (Ok tt, mkWorld (conversation_history w) (conversation_active w) false false
            (out w ++ [Print ("Argon: " ++ String "-" rest);
                       System (say_command (String "-" (clean_text rest)))])).
Proof. rewrite speak_spec. reflexivity. Qed.
