(* ===== verification/Filter.v ===== *)
(** * Filter: [listen] and [is_whisper_hallucination]
    (src/Argon.py, lines 41-113)

    [listen] captures one phrase, transcribes it with Whisper and
    returns the stripped transcript, or [""] when there was nothing to
    hear or the transcript is rejected.  The microphone and the
    transcription are not modelled: a [capture] value says what they
    did.  [transcript_filter] is the chain of checks of lines 66-81
    (length below 2, hallucination, length above 200);
    [is_whisper_hallucination] is the artifact-phrase test and the
    repeated-halves test of lines 86-113.

    The theorems characterise what [listen] lets through, show that a
    known artifact phrase in any letter case is rejected wherever it
    occurs, characterise the repetition test (it can only fire on an
    even number of words, so the specification's split of an odd word
    count agrees with the code's), and give the exact state [listen]
    leaves. *)

From S2P Require Import Prelude PyStr World.
From Stdlib Require Import String Ascii List Bool Arith Lia.
Import ListNotations.

Local Open Scope string_scope.
Local Open Scope nat_scope.

(** ** [is_whisper_hallucination] *)

(** The list of lines 91-98. *)
Definition hallucinations : list string :=
  ["thank you for watching"; "subscribe"; "english translation";
   "transcribed by"; "translation by"; "subtitles by"].

(** Lines 105-111: more than five words whose first and second halves
    (split at [len(words)//2]) join to the same string. *)
Definition repeated_halves (words : list string) : bool :=
  if 5 <? length words then
    let first_half := Str.join " " (firstn (length words / 2) words) in
    let second_half := Str.join " " (skipn (length words / 2) words) in
    String.eqb first_half second_half
  else false.

Definition is_whisper_hallucination (text : string) : bool :=
  let text_lower := Str.lower text in
  if existsb (fun phrase => Str.contains phrase text_lower) hallucinations then true
  else repeated_halves (Str.split text).

(** ** [listen] *)

(** What the speech-recognition library and Whisper did. *)
Inductive capture : Type :=
| MicUnavailable           (** [sr.Microphone()] raises (line 50) *)
| ListenTimeout            (** [r.listen] raises [WaitTimeoutError] (line 56) *)
| CaptureFailed            (** calibration, [r.listen] or the WAV write raises (52-61) *)
| TranscribeFailed         (** [model.transcribe] raises (line 65, caught line 83) *)
| Transcribed (raw : string).  (** [result["text"]] *)

(** Lines 66-81: [Some text] when [listen] returns [text]. *)
Definition transcript_filter (raw : string) : option string :=
  let text := Str.strip raw in
  if String.length text <? 2 then None
  else if is_whisper_hallucination text then None
  else if 200 <? String.length text then None
  else Some text.

Definition listen_banner : string := String (ascii_of_nat 10) "Listening...".

Definition listen (c : capture) : M string :=
  match c with
  | MicUnavailable => raise OtherException
  | _ =>
      print listen_banner ;;
      match c with
      | ListenTimeout | TranscribeFailed => ret ""
      | Transcribed raw =>
          match transcript_filter raw with
          | None => ret ""
          | Some text => print ("You: " ++ text) ;; ret text
          end
      | _ => raise OtherException
      end
  end.

Example transcript_filter_examples :
  transcript_filter "Thank you for watching!" = None /\
  transcript_filter "please stop now please stop now" = None /\
  transcript_filter "  please stop now and go home " = Some "please stop now and go home" /\
  transcript_filter " a " = None.
Proof. vm_compute. repeat split. Qed.

(** Section 4.1 of the specification splits an odd number of words
    with the extra word in the first half; the code (line 108) puts it
    in the second half. *)
Definition spec_repeated_halves (words : list string) : bool :=
  let k := (length words + 1) / 2 in
  (5 <? length words) &&
  String.eqb (Str.join " " (firstn k words)) (Str.join " " (skipn k words)).

(** ** Lemmas *)

Lemma hallucinations_solid :
  Forall (fun p => Str.lstrip p = p /\ Str.rstrip p = p /\ p <> EmptyString) hallucinations.
Proof. repeat constructor; discriminate. Qed.

(** Joining two runs of words gives the same string exactly when the
    runs are equal. *)
Lemma join_halves_eqb k words :
  Forall (fun v => Str.word_ok v = true) words ->
  String.eqb (Str.join " " (firstn k words)) (Str.join " " (skipn k words)) = true <->
  firstn k words = skipn k words.
Proof.
  intros Hok. rewrite String.eqb_eq. split; [|now intros ->].
  apply Str.join_inj; auto with argon.
Qed.

(** Equal halves have equal lengths. *)
Lemma halves_length k (words : list string) :
  k <= length words -> firstn k words = skipn k words -> k + k = length words.
Proof.
  intros Hk E. apply (f_equal (@length string)) in E.
  rewrite length_firstn, length_skipn in E. lia.
Qed.

Lemma repeated_halves_iff words :
  Forall (fun v => Str.word_ok v = true) words ->
  repeated_halves words = true <->
  5 < length words /\ firstn (length words / 2) words = skipn (length words / 2) words.
Proof.
  intros Hok. unfold repeated_halves.
  destruct (Nat.ltb_spec 5 (length words)).
  - rewrite join_halves_eqb by exact Hok. intuition lia.
  - split; [discriminate | lia].
Qed.

(** What [listen] lets through is stripped and at least two
    characters long. *)
Lemma transcript_filter_some raw text :
  transcript_filter raw = Some text ->
  text = Str.strip raw /\ 2 <= String.length text <= 200 /\
  is_whisper_hallucination text = false.
Proof.
  unfold transcript_filter.
  destruct (Nat.ltb_spec (String.length (Str.strip raw)) 2); [discriminate|].
  destruct (is_whisper_hallucination (Str.strip raw)) eqn:E; [discriminate|].
  destruct (Nat.ltb_spec 200 (String.length (Str.strip raw))); [discriminate|].
  intros [= <-]. repeat split; auto; lia.
Qed.

(** After [listen] hears [text], the guard of line 255 passes. *)
Lemma transcript_filter_nonblank raw text :
  transcript_filter raw = Some text ->
  Str.is_empty text || (String.length (Str.strip text) =? 0) = false.
Proof.
  intros H. destruct (transcript_filter_some raw text H) as (-> & [Hlo _] & _).
  rewrite Str.strip_idem. apply orb_false_iff. split.
  - destruct (Str.strip raw); [simpl in Hlo; lia | reflexivity].
  - apply Nat.eqb_neq. lia.
Qed.

Definition heard (w : World) (text : string) : World :=
  emit (Print ("You: " ++ text)) (emit (Print listen_banner) w).

Lemma listen_heard raw text w :
  transcript_filter raw = Some text -> listen (Transcribed raw) w = (Ok text, heard w text).
Proof. intros H. cbn. now rewrite H. Qed.

(** ** Theorems *)

(** C5 [transcript_filter_spec]: [listen] lets a transcript through
    exactly when, once stripped, it has between 2 and 200 characters and
    is not a Whisper hallucination; what it returns is then the
    stripped text. *)
Theorem transcript_filter_spec raw text :
  transcript_filter raw = Some text <->
  text = Str.strip raw /\ 2 <= String.length text <= 200 /\
  is_whisper_hallucination text = false.
Proof.
  split; [apply transcript_filter_some|]. intros (-> & [Hlo Hhi] & Hh).
  unfold transcript_filter. rewrite Hh.
  destruct (Nat.ltb_spec (String.length (Str.strip raw)) 2); [lia|].
  destruct (Nat.ltb_spec 200 (String.length (Str.strip raw))); [lia | reflexivity].
Qed.

(** C9 [artifact_rejected]: a transcript that contains one of the
    known artifact phrases, in any mix of upper and lower case and
    anywhere in the text, is rejected. *)
Theorem artifact_rejected p P a b :
  In p hallucinations -> Str.lower P = p ->
  transcript_filter (a ++ P ++ b) = None.
Proof.
  intros Hin Hlow.
  pose proof (proj1 (Forall_forall _ _) hallucinations_solid p Hin) as (Hl & Hr & Hne).
  subst p. destruct (Str.strip_fixed_lower P Hl Hr) as [HPl HPr].
  assert (HP : P <> EmptyString) by (intros ->; apply Hne; reflexivity).
  destruct (Str.strip_inner a P b HP HPl HPr) as (x & y & Hs).
  unfold transcript_filter. rewrite Hs.
  destruct (_ <? 2); [reflexivity|].
  unfold is_whisper_hallucination.
  replace (existsb _ _) with true; [reflexivity|]. symmetry.
  apply existsb_exists. exists (Str.lower P). split; [exact Hin|].
  rewrite !Str.lower_app. apply Str.contains_app, Str.contains_refl.
Qed.

Example artifact_rejected_witness :
  In "thank you for watching" hallucinations /\
  Str.lower "Thank You For Watching" = "thank you for watching" /\
  transcript_filter ("  OK. " ++ "Thank You For Watching" ++ "!!") = None.
Proof.
  split; [simpl; auto|]. split; [reflexivity|].
  apply (artifact_rejected "thank you for watching" "Thank You For Watching" "  OK. " "!!");
    [simpl; auto | reflexivity].
Defined.

(** C10 [repetition_check_spec]: the repetition test of lines 105-111
    fires exactly when the transcript has more than five words, an even
    number of them, and its first half of words equals its second half.
    An odd number of words never fires it. *)
Theorem repetition_check_spec text :
  let words := Str.split text in
  repeated_halves words = true <->
  5 < length words /\ Nat.Even (length words) /\
  firstn (length words / 2) words = skipn (length words / 2) words.
Proof.
  intros words. rewrite repeated_halves_iff by apply Str.split_ok.
  split; [|tauto]. intros [H5 E]. split; [exact H5|]. split; [|exact E].
  exists (length words / 2).
  div2_facts (length words).
  pose proof (halves_length (length words / 2) words ltac:(lia) E). lia.
Qed.

(** C11 [repetition_split_equiv]: where the odd word goes does not
    matter: the code's split of the words and the specification's give
    the same verdict on every transcript. *)
Theorem repetition_split_equiv text :
  repeated_halves (Str.split text) = spec_repeated_halves (Str.split text).
Proof.
  pose proof (Str.split_ok text) as Hok. set (words := Str.split text) in *.
  apply eq_iff_eq_true. unfold repeated_halves, spec_repeated_halves.
  set (n := length words). assert (Hn : n = length words) by reflexivity.
  clearbody n. destruct (5 <? n); [rewrite andb_true_l | split; discriminate].
  rewrite !join_halves_eqb by exact Hok.
  div2_facts n. div2_facts (n + 1).
  split; intros E.
  - pose proof (halves_length (n / 2) words ltac:(lia) E).
    replace ((n + 1) / 2) with (n / 2) by lia. exact E.
  - pose proof (halves_length ((n + 1) / 2) words ltac:(lia) E).
    replace (n / 2) with ((n + 1) / 2) by lia. exact E.
Qed.

(** The trace [listen] leaves when it returns [t]: the banner, and the
    echo of the transcript when there is one. *)
Definition listen_trace (t : string) : list event :=
  Print listen_banner :: (if Str.is_empty t then [] else [Print ("You: " ++ t)]).

(** C18 [listen_result]: when [listen] returns [t], the only change to
    the world is the printed trace (the banner, then ["You: " ++ t]
    when [t] is not empty): the history, [conversation_active],
    [is_speaking] and [interrupt_requested] are untouched.  And [t] is
    either [""] or a recogniser transcript that passed every check of
    lines 66-81. *)
Theorem listen_result c w t w' :
  listen c w = (Ok t, w') ->
  w' = mkWorld (conversation_history w) (conversation_active w) (is_speaking w)
         (interrupt_requested w) (out w ++ listen_trace t)%list /\
  (t = EmptyString \/ exists raw, c = Transcribed raw /\ transcript_filter raw = Some t).
Proof.
  destruct w as [h a spk intr o].
  destruct c as [| | | |raw]; cbn; intros H; try discriminate.
  1,2: injection H as <- <-; auto.
  destruct (transcript_filter raw) as [text|] eqn:E; injection H as <- <-; [|auto].
  destruct (transcript_filter_some raw text E) as (_ & [Hlo _] & _).
  split; [|eauto]. unfold listen_trace.
  destruct text as [|c0 text]; [simpl in Hlo; lia|].
  cbn. unfold emit. cbn. rewrite <- app_assoc. reflexivity.
Qed.

(** [listen] raises exactly when the microphone cannot be opened or the
    capture fails; the exception is not caught inside [listen]. *)
Lemma listen_raises c w e w' :
  listen c w = (Raised e, w') -> c = MicUnavailable \/ c = CaptureFailed.
Proof.
  destruct c as [| | | |raw]; cbn; intros H; auto; try discriminate.
  destruct (transcript_filter raw); discriminate.
Qed.

Example listen_result_witness :
  listen (Transcribed " Hello there ") init_world =
    (Ok "Hello there", heard init_world "Hello there") /\
  (heard init_world "Hello there" =
     mkWorld [] false false false ([] ++ listen_trace "Hello there")%list /\
   ("Hello there" = EmptyString \/
    exists raw, Transcribed " Hello there " = Transcribed raw /\
                transcript_filter raw = Some "Hello there")).
Proof.
  assert (E : listen (Transcribed " Hello there ") init_world =
              (Ok "Hello there", heard init_world "Hello there")) by reflexivity.
  split; [exact E | exact (listen_result _ _ _ _ E)].
Defined.
