(* ===== verification/Context.v ===== *)
(** * Context: the conversation history of [ask_gemma]
    (src/Argon.py, lines 138-143 and 160-165)

    The code keeps the history as one flat list: user prompt, reply,
    user prompt, reply, ...  After a successful call it appends the
    pair and keeps the last eight entries ([record_exchange]); to build
    the prompt it labels the last four entries ["You: "] and
    ["Argon: "] by the parity of their position in the slice
    ([render_context], [build_prompt]).

    The class [ContextWindow] states what the history promises the
    session: a FIFO of (user, agent) pairs that keeps the four most
    recent.  [PairWindow] is the abstract instance (a list of pairs),
    [FlatWindow] the code's flat list; [record_exchange_flatten] shows
    the code's operation is the abstract one seen through [flatten].
    The client theorems of section [Client] are proved once against
    the class and give the contents of the history after any run. *)

From S2P Require Import Prelude PyStr.
From Stdlib Require Import String Ascii List Bool Arith Lia.
Import ListNotations.

Local Open Scope string_scope.
Local Open Scope nat_scope.

Definition nl : string := String (ascii_of_nat 10) EmptyString.

(** ** The code *)

(** Lines 160-165: append the prompt and the reply; keep the last
    eight entries when there are more. *)
Definition record_exchange (prompt response : string) (history : list string) : list string :=
  let h := (history ++ [prompt; response])%list in
  if 8 <? length h then lastn 8 h else h.

(** Line 139: entry [i] of the slice is a user line when [i] is even. *)
Definition history_line (i : nat) (h : string) : string :=
  if Nat.even i then "You: " ++ h else "Argon: " ++ h.

(** [enumerate(hs)] starting at index [i]. *)
Fixpoint enumerate_lines (i : nat) (hs : list string) : list string :=
  match hs with
  | [] => []
  | h :: hs' => history_line i h :: enumerate_lines (S i) hs'
  end.

(** Lines 139-140: the last four entries, one per line. *)
Definition render_context (history : list string) : string :=
  Str.join nl (enumerate_lines 0 (lastn 4 history)).

(** Lines 138-143: the full prompt after the system prompt. *)
Definition build_prompt (system_prompt prompt : string) (history : list string) : string :=
  match history with
  | [] => system_prompt ++ "You: " ++ prompt ++ nl ++ "Argon:"
  | _ :: _ =>
      system_prompt ++ "Recent conversation:" ++ nl ++ render_context history ++
      nl ++ nl ++ "You: " ++ prompt ++ nl ++ "Argon:"
  end.

(** ** The contract *)

Definition exchange : Type := (string * string)%type.

(** A window of exchanges: [cw_pairs] is the list of (user, agent)
    pairs it holds, oldest first; recording keeps the four most recent.
    [cw_wf] is the representation invariant the window maintains. *)
Class ContextWindow (W : Type) := {
  cw_empty : W;
  cw_record : string -> string -> W -> W;
  cw_pairs : W -> list exchange;
  cw_wf : W -> Prop;
  cw_wf_empty : cw_wf cw_empty;
  cw_pairs_empty : cw_pairs cw_empty = [];
  cw_wf_record u a w : cw_wf w -> cw_wf (cw_record u a w);
  cw_pairs_record u a w :
    cw_wf w -> cw_pairs (cw_record u a w) = lastn 4 (cw_pairs w ++ [(u, a)])%list
}.

(** The windows reached from the empty one by recording [xs], in order. *)
Definition cw_fill {W} `{ContextWindow W} (xs : list exchange) : W :=
  fold_left (fun w '(u, a) => cw_record u a w) xs cw_empty.

(** ** The flat representation *)

Fixpoint flatten (ps : list exchange) : list string :=
  match ps with
  | [] => []
  | (u, a) :: ps' => u :: a :: flatten ps'
  end.

Fixpoint pair_up (h : list string) : list exchange :=
  match h with
  | u :: a :: h' => (u, a) :: pair_up h'
  | _ => []
  end.

Definition flat_wf (h : list string) : Prop :=
  exists ps, h = flatten ps /\ length ps <= 4.

(** The two lines an exchange contributes to the prompt. *)
Definition exchange_lines (x : exchange) : list string :=
  let '(u, a) := x in ["You: " ++ u; "Argon: " ++ a].

(** ** Lemmas on the flat representation *)

Lemma length_flatten ps : length (flatten ps) = 2 * length ps.
Proof. induction ps as [|[u a] ps IH]; simpl; lia. Qed.

Lemma pair_up_flatten ps : pair_up (flatten ps) = ps.
Proof. induction ps as [|[u a] ps IH]; simpl; rewrite ?IH; reflexivity. Qed.

Lemma flatten_app ps qs : flatten (ps ++ qs)%list = (flatten ps ++ flatten qs)%list.
Proof. induction ps as [|[u a] ps IH]; simpl; rewrite ?IH; reflexivity. Qed.

Lemma skipn_flatten m ps : skipn (2 * m) (flatten ps) = flatten (skipn m ps).
Proof.
  revert ps; induction m as [|m IH]; intros [|[u a] ps]; try reflexivity.
  replace (2 * S m) with (S (S (2 * m))) by lia. apply IH.
Qed.

Lemma lastn_flatten k ps : lastn (2 * k) (flatten ps) = flatten (lastn k ps).
Proof.
  unfold lastn. rewrite length_flatten, <- skipn_flatten. f_equal. lia.
Qed.

Lemma enumerate_flatten i ps :
  Nat.even i = true ->
  enumerate_lines i (flatten ps) = concat (map exchange_lines ps).
Proof.
  revert i; induction ps as [|[u a] ps IH]; intros i Hi; [reflexivity|].
  simpl. unfold history_line. rewrite Hi, Nat.even_succ, <- Nat.negb_even, Hi. simpl.
  f_equal. f_equal. apply IH. now rewrite Nat.even_succ_succ.
Qed.

(** The refinement: on a history that is the flattening of at most
    four pairs, [record_exchange] is "append the pair, keep the last
    four pairs". *)
Lemma record_exchange_flatten u a ps :
  length ps <= 4 ->
  record_exchange u a (flatten ps) = flatten (lastn 4 (ps ++ [(u, a)])%list).
Proof.
  intros Hps. unfold record_exchange.
  replace (flatten ps ++ [u; a])%list with (flatten (ps ++ [(u, a)])%list)
    by (rewrite flatten_app; reflexivity).
  rewrite length_flatten, length_app. simpl length.
  destruct (Nat.ltb_spec 8 (2 * (length ps + 1))).
  - apply (lastn_flatten 4).
  - rewrite lastn_all; [reflexivity|]. rewrite length_app. simpl. lia.
Qed.

Lemma flat_wf_record u a h : flat_wf h -> flat_wf (record_exchange u a h).
Proof.
  intros (ps & -> & Hps). rewrite record_exchange_flatten by exact Hps.
  eexists. split; [reflexivity|]. rewrite lastn_length. lia.
Qed.

Lemma flat_pairs_record u a h :
  flat_wf h -> pair_up (record_exchange u a h) = lastn 4 (pair_up h ++ [(u, a)])%list.
Proof.
  intros (ps & -> & Hps). rewrite record_exchange_flatten by exact Hps.
  now rewrite !pair_up_flatten.
Qed.

Lemma pair_wf_record u a (w : list exchange) :
  length w <= 4 -> length (lastn 4 (w ++ [(u, a)])%list) <= 4.
Proof. intros _. rewrite lastn_length. lia. Qed.

(** ** The two instances *)

#[export] Instance PairWindow : ContextWindow (list exchange) := {|
  cw_empty := [];
  cw_record u a w := lastn 4 (w ++ [(u, a)])%list;
  cw_pairs w := w;
  cw_wf w := length w <= 4;
  cw_wf_empty := le_0_n 4;
  cw_pairs_empty := eq_refl;
  cw_wf_record := pair_wf_record;
  cw_pairs_record u a w _ := eq_refl
|}.

#[export] Instance FlatWindow : ContextWindow (list string) := {|
  cw_empty := [];
  cw_record := record_exchange;
  cw_pairs := pair_up;
  cw_wf := flat_wf;
  cw_wf_empty := ex_intro _ [] (conj eq_refl (le_0_n 4));
  cw_pairs_empty := eq_refl;
  cw_wf_record := flat_wf_record;
  cw_pairs_record := flat_pairs_record
|}.

(** ** What every window guarantees *)

Section Client.
Context {W : Type} `{CW : ContextWindow W}.

Lemma cw_fill_snoc xs x :
  cw_fill (xs ++ [x])%list = cw_record (fst x) (snd x) (cw_fill xs).
Proof. unfold cw_fill. rewrite fold_left_app. now destruct x. Qed.

Lemma cw_fill_wf xs : cw_wf (cw_fill xs).
Proof.
  induction xs as [|x xs IH] using rev_ind; [apply cw_wf_empty|].
  rewrite cw_fill_snoc. now apply cw_wf_record.
Qed.

(** After any sequence of exchanges the window holds the last four,
    oldest first. *)
Lemma cw_fill_pairs xs : cw_pairs (cw_fill xs) = lastn 4 xs.
Proof.
  induction xs as [|x xs IH] using rev_ind; [apply cw_pairs_empty|].
  rewrite cw_fill_snoc, cw_pairs_record by apply cw_fill_wf.
  rewrite IH, lastn_lastn_app. now destruct x.
Qed.
End Client.

Lemma flat_wf_flatten h : flat_wf h -> h = flatten (pair_up h).
Proof. intros (ps & -> & _). now rewrite pair_up_flatten. Qed.

(** ** Theorems *)

(** C4 [history_keeps_last_four]: starting from the empty history of
    line 16, the history after any sequence of successful exchanges
    holds the last four of them, oldest first, as user prompt then
    reply: at most eight entries, the oldest pairs evicted first. *)
Theorem history_keeps_last_four xs :
  fold_left (fun h '(u, a) => record_exchange u a h) xs [] = flatten (lastn 4 xs).
Proof.
  change (fold_left _ xs []) with (@cw_fill (list string) FlatWindow xs).
  rewrite (flat_wf_flatten _ (@cw_fill_wf _ FlatWindow xs)).
  f_equal. apply (@cw_fill_pairs _ FlatWindow).
Qed.

(** C13 [record_exchange_evicts_oldest]: with four exchanges held, a
    fifth one evicts exactly the oldest: the history becomes the three
    most recent old pairs followed by the new one. *)
Theorem record_exchange_evicts_oldest u a ps :
  length ps = 4 ->
  record_exchange u a (flatten ps) = flatten (tl ps ++ [(u, a)])%list.
Proof.
  intros H4. rewrite record_exchange_flatten by lia.
  destruct ps as [|p ps]; [discriminate|]. f_equal.
  change ((p :: ps) ++ [(u, a)])%list with ([p] ++ (ps ++ [(u, a)]))%list.
  rewrite lastn_app_long, lastn_all; [reflexivity | ..];
    rewrite length_app; simpl in *; lia.
Qed.

Example record_exchange_evicts_oldest_witness :
  length [("q1", "r1"); ("q2", "r2"); ("q3", "r3"); ("q4", "r4")] = 4 /\
  record_exchange "q5" "r5" (flatten [("q1", "r1"); ("q2", "r2"); ("q3", "r3"); ("q4", "r4")]) =
  flatten [("q2", "r2"); ("q3", "r3"); ("q4", "r4"); ("q5", "r5")].
Proof.
  split; [reflexivity|].
  apply (record_exchange_evicts_oldest "q5" "r5"
           [("q1", "r1"); ("q2", "r2"); ("q3", "r3"); ("q4", "r4")]).
  reflexivity.
Defined.

(** C12 [render_last_two_exchanges]: the history section of the
    prompt is the last two exchanges (four entries) only, each shown as
    a ["You: "] line followed by an ["Argon: "] line: the parity labels
    of line 139 always match who spoke. *)
Theorem render_last_two_exchanges ps :
  render_context (flatten ps) = Str.join nl (concat (map exchange_lines (lastn 2 ps))).
Proof.
  unfold render_context. rewrite (lastn_flatten 2). now rewrite enumerate_flatten.
Qed.
