(* ===== verification/Session.v ===== *)
(** * Session: [ask_gemma] (src/Argon.py, lines 115-173)

    [ask_gemma] marks the conversation active, builds the prompt from
    the system prompt (with the current time and date) and the history
    ([Context.build_prompt]), prints a "thinking" phrase, runs
    [ollama run gemma3:4b] with a 45 second timeout, and on exit code 0
    records the stripped output in the history and returns it.  A
    non-zero exit code, the timeout, and any other exception each give
    a fixed reply and leave the history alone.

    The subprocess is not modelled: [backend] maps the prompt it is
    given to what [subprocess.run] did.  [dialogue_outcome] is the
    abstract specification of the session (reply and new history as a
    plain function of the backend's result), and [ask_gemma_refines]
    shows the monadic code implements it. *)

From S2P Require Import Prelude PyStr World Context.
From Stdlib Require Import String Ascii List Bool Arith ZArith Lia.
Import ListNotations.

Local Open Scope string_scope.

(** What [subprocess.run(..., timeout=45)] did. *)
Inductive backend_result : Type :=
| Completed (returncode : Z) (stdout : string)
| BackendTimeout      (** raises [subprocess.TimeoutExpired] *)
| LaunchFailed.       (** raises another exception ([FileNotFoundError], ...) *)

(** Lines 126-135. *)
Definition system_prompt (clk : clock) : string :=
  "You are Argon, a helpful AI assistant having a conversation." ++ nl ++
  "Be direct, helpful, and conversational. Keep responses reasonably short." ++ nl ++
  "Avoid excessive emojis or overly enthusiastic language." ++ nl ++ nl ++
  "Current time: " ++ time_I_M_p clk ++ nl ++
  "Current date: " ++ date_A_B_d_Y clk ++ nl ++ nl ++
  "Give natural, helpful responses without being too chatty." ++ nl ++ nl.

Definition reply_nonzero : string := "Sorry, I'm having trouble processing that.".
Definition reply_timeout : string := "That's taking too long to process. Can you rephrase?".
Definition reply_error : string := "I encountered an error. Please try again.".

(** Lines 149-155: the call, its exceptions raised as Python does. *)
Definition run_backend (backend : string -> backend_result) (full_prompt : string)
  : M (Z * string) :=
  match backend full_prompt with
  | Completed rc stdout => ret (rc, stdout)
  | BackendTimeout => raise TimeoutExpired
  | LaunchFailed => raise OtherException
  end.

Definition ask_gemma (clk : clock) (r : nat) (backend : string -> backend_result)
  (prompt : string) : M string :=
  modify (set_active true) ;;
  w <- read_state ;;
  let full_prompt := build_prompt (system_prompt clk) prompt (conversation_history w) in
  try_except
    (thinking <- choice THINKING_RESPONSES r ;;
     print thinking ;;
     res <- run_backend backend full_prompt ;;
     if Z.eqb (fst res) 0 then
       let response := Str.strip (snd res) in
       w <- read_state ;;
       write_state (set_history (record_exchange prompt response (conversation_history w)) w) ;;
       ret response
     else ret reply_nonzero)
    (fun e =>
       match e with
       | TimeoutExpired => ret reply_timeout
       | _ => ret reply_error
       end).

(** ** The abstract session *)

(** Section 4.4 of the specification, with the code's three fallback
    replies: the reply and the new history as a function of what the
    backend did. *)
Definition dialogue_outcome (prompt : string) (o : backend_result) (history : list string)
  : string * list string :=
  match o with
  | Completed rc stdout =>
      if Z.eqb rc 0 then
        (Str.strip stdout, record_exchange prompt (Str.strip stdout) history)
      else (reply_nonzero, history)
  | BackendTimeout => (reply_timeout, history)
  | LaunchFailed => (reply_error, history)
  end.

(** ** Lemmas *)

Definition thinking_pick (r : nat) : string := nth (r mod 3) THINKING_RESPONSES EmptyString.

Lemma thinking_pick_in r : In (thinking_pick r) THINKING_RESPONSES.
Proof. apply nth_In, Nat.mod_upper_bound. discriminate. Qed.

(** Run [ask_gemma] down to the backend's answer. *)
Lemma ask_gemma_unfold clk r backend prompt w :
  ask_gemma clk r backend prompt w =
  let w1 := emit (Print (thinking_pick r)) (set_active true w) in
  match backend (build_prompt (system_prompt clk) prompt (conversation_history w)) with
  | Completed rc stdout =>
      if Z.eqb rc 0 then
        (Ok (Str.strip stdout),
         set_history (record_exchange prompt (Str.strip stdout) (conversation_history w1)) w1)
      else (Ok reply_nonzero, w1)
  | BackendTimeout => (Ok reply_timeout, w1)
  | LaunchFailed => (Ok reply_error, w1)
  end.
Proof.
  unfold ask_gemma, run_backend, choice, try_except, bind, ret, raise, print, modify,
    read_state, write_state.
  cbn - [build_prompt system_prompt record_exchange Str.strip].
  destruct (backend _) as [rc stdout | |];
    cbn - [build_prompt system_prompt record_exchange Str.strip];
    [destruct (Z.eqb rc 0)|..]; reflexivity.
Qed.

(** ** Theorems *)

(** C2 [ask_gemma_refines]: [ask_gemma] implements the abstract
    session [dialogue_outcome]: whatever the backend does with the
    prompt built from the current history, [ask_gemma] raises nothing,
    returns the reply the specification gives, leaves exactly the
    history it gives (the stripped output recorded on exit code 0, the
    old history otherwise), sets [conversation_active], leaves the
    playback flags alone, and prints one phrase of
    [THINKING_RESPONSES]. *)
Theorem ask_gemma_refines clk r backend prompt w :
  let o := backend (build_prompt (system_prompt clk) prompt (conversation_history w)) in
  exists thinking,
    In thinking THINKING_RESPONSES /\
    ask_gemma clk r backend prompt w =
    (Ok (fst (dialogue_outcome prompt o (conversation_history w))),
     mkWorld (snd (dialogue_outcome prompt o (conversation_history w))) true
       (is_speaking w) (interrupt_requested w) (out w ++ [Print thinking])).
Proof.
  intros o. exists (thinking_pick r). split; [apply thinking_pick_in|].
  rewrite ask_gemma_unfold. subst o. destruct w as [h act spk intr tr]. cbn.
  destruct (backend _) as [rc stdout | |]; cbn; [destruct (Z.eqb rc 0)|..]; reflexivity.
Qed.

(** C14 [ask_gemma_timeout_keeps_history]: when the backend does not
    answer within the 45 s deadline, [ask_gemma] replies with the fixed
    "taking too long" text and the history is unchanged (same entries,
    so the same size); the conversation stays active. *)
Theorem ask_gemma_timeout_keeps_history clk r backend prompt w :
  backend (build_prompt (system_prompt clk) prompt (conversation_history w)) = BackendTimeout ->
  exists w',
    ask_gemma clk r backend prompt w = (Ok reply_timeout, w') /\
    conversation_history w' = conversation_history w /\
    conversation_active w' = true.
Proof.
  intros Ht. rewrite ask_gemma_unfold, Ht. eexists. repeat split.
Qed.

Example ask_gemma_timeout_keeps_history_witness :
  let clk := mkClock "10:30 AM" "Monday, June 02, 2025" "Monday, June 02" in
  (fun _ : string => BackendTimeout)
    (build_prompt (system_prompt clk) "tell me a joke" (conversation_history init_world))
    = BackendTimeout /\
  exists w',
    ask_gemma clk 0 (fun _ => BackendTimeout) "tell me a joke" init_world = (Ok reply_timeout, w') /\
    conversation_history w' = conversation_history init_world /\
    conversation_active w' = true.
Proof.
  intros clk. split; [reflexivity|].
  exact (ask_gemma_timeout_keeps_history clk 0 (fun _ => BackendTimeout) "tell me a joke"
           init_world eq_refl).
Defined.

(** The three fallback replies are distinct: the user can tell a
    failed process, a timeout and a launch error apart. *)
Lemma fallback_replies_distinct :
  reply_nonzero <> reply_timeout /\ reply_nonzero <> reply_error /\ reply_timeout <> reply_error.
Proof. repeat split; discriminate. Qed.
