(* ===== verification/Router.v ===== *)
(** * Router: [handle_wake_word] and [handle_casual_commands]
    (src/Argon.py, lines 190-240)

    Both handlers lower-case the utterance and test it with Python's
    substring [in] against fixed phrase lists, first match wins.  A
    wake word sets [conversation_active] and speaks a [WAKE_RESPONSES]
    phrase; the casual commands speak the time, the date, a status
    reply or a conversation starter and set [conversation_active]; an
    exit phrase speaks a farewell and returns ["EXIT"].

    [route] is the abstract classifier of section 4.2 of the
    specification: the action a whole turn takes, as a pure function of
    the text and of [conversation_active].  The theorems of [TurnLoop]
    show the loop body does what [route] says; this file proves the
    facts about the phrase lists themselves. *)

From S2P Require Import Prelude PyStr World Speech.
From Stdlib Require Import String Ascii List Bool Arith Lia.
Import ListNotations.

Local Open Scope string_scope.
Local Open Scope nat_scope.

(** [any(phrase in text_lower for phrase in phrases)] *)
Definition any_phrase (phrases : list string) (text_lower : string) : bool :=
  existsb (fun phrase => Str.contains phrase text_lower) phrases.

(** ** [handle_wake_word] *)

Definition wake_words : list string := ["argon"; "hey argon"; "hello argon"].

Definition handle_wake_word (r : nat) (text : string) : M bool :=
  if any_phrase wake_words (Str.lower text) then
    modify (set_active true) ;;
    response <- choice WAKE_RESPONSES r ;;
    speak response ;;
    ret true
  else ret false.

(** ** [handle_casual_commands] *)

(** The three results of lines 211-240: [True], ["EXIT"], [False]. *)
Inductive casual_result : Type :=
| CasualTrue
| CasualExit
| CasualFalse.

Definition time_phrases : list string := ["what time"; "time"].
Definition date_phrases : list string := ["what date"; "today"].
Definition status_phrases : list string := ["how are you"; "how's it going"; "what's up"].
Definition starter_phrases : list string := ["let's chat"; "talk to me"; "conversation"].
Definition exit_phrases : list string :=
  ["goodbye"; "bye"; "see you"; "talk later"; "go offline"].

(** Lines 220-225. *)
Definition status_responses : list string :=
  ["I'm good. How about you?"; "Fine. What's going on?";
   "All good. What do you need?"; "I'm well. How are you?"].

Definition farewell : string := "Going offline. Goodbye.".

Definition handle_casual_commands (clk : clock) (r : nat) (text : string) : M casual_result :=
  let text_lower := Str.lower text in
  if any_phrase time_phrases text_lower then
    speak ("It's " ++ time_I_M_p clk ++ " right now.") ;;
    modify (set_active true) ;;
    ret CasualTrue
  else if any_phrase date_phrases text_lower then
    speak ("Today is " ++ date_A_B_d clk ++ ".") ;;
    modify (set_active true) ;;
    ret CasualTrue
  else if any_phrase status_phrases text_lower then
    reply <- choice status_responses r ;;
    speak reply ;;
    modify (set_active true) ;;
    ret CasualTrue
  else if any_phrase starter_phrases text_lower then
    starter <- choice CONVERSATION_STARTERS r ;;
    speak starter ;;
    modify (set_active true) ;;
    ret CasualTrue
  else if any_phrase exit_phrases text_lower then
    speak farewell ;;
    ret CasualExit
  else ret CasualFalse.

(** ** The abstract classifier *)

Inductive action : Type :=
| WakeAck
| TimeQuery
| DateQuery
| StatusQuery
| ConversationStarter
| Exit
| Continue
| Dialogue.

(** Section 4.2 of the specification, in its priority order. *)
Definition route (text : string) (active : bool) : action :=
  let t := Str.lower text in
  if any_phrase wake_words t then WakeAck
  else if any_phrase time_phrases t then TimeQuery
  else if any_phrase date_phrases t then DateQuery
  else if any_phrase status_phrases t then StatusQuery
  else if any_phrase starter_phrases t then ConversationStarter
  else if any_phrase exit_phrases t then Exit
  else if active || (1 <? length (Str.split text)) then Dialogue
  else Continue.

Example route_spec_examples :
  route "hey argon" false = WakeAck /\
  route "goodbye" true = Exit /\
  route "go to the store" false = Dialogue /\
  route "ok" false = Continue.
Proof. vm_compute. repeat split. Qed.

(** ** The handlers, run *)

(** The world after [speak reply]. *)
Definition spoken (w : World) (reply : string) : World :=
  mkWorld (conversation_history w) (conversation_active w) false false
    (out w ++ [Print ("Argon: " ++ reply); System (say_command (clean_text reply))]).

Lemma speak_run reply w : speak reply w = (Ok tt, spoken w reply).
Proof. apply speak_spec. Qed.

Lemma spoken_set_active b w reply :
  spoken (set_active b w) reply = set_active b (spoken w reply).
Proof. reflexivity. Qed.

Definition wake_reply (r : nat) : string := nth (r mod 4) WAKE_RESPONSES EmptyString.
Definition status_reply (r : nat) : string := nth (r mod 4) status_responses EmptyString.
Definition starter_reply (r : nat) : string := nth (r mod 3) CONVERSATION_STARTERS EmptyString.

Lemma handle_wake_word_run r text w :
  handle_wake_word r text w =
  if any_phrase wake_words (Str.lower text)
  then (Ok true, spoken (set_active true w) (wake_reply r))
  else (Ok false, w).
Proof.
  unfold handle_wake_word. destruct (any_phrase _ _); [|reflexivity].
  cbv [bind ret modify choice WAKE_RESPONSES length]. rewrite speak_run. reflexivity.
Qed.

Lemma handle_casual_commands_run clk r text w :
  handle_casual_commands clk r text w =
  let t := Str.lower text in
  if any_phrase time_phrases t then
    (Ok CasualTrue, set_active true (spoken w ("It's " ++ time_I_M_p clk ++ " right now.")))
  else if any_phrase date_phrases t then
    (Ok CasualTrue, set_active true (spoken w ("Today is " ++ date_A_B_d clk ++ ".")))
  else if any_phrase status_phrases t then
    (Ok CasualTrue, set_active true (spoken w (status_reply r)))
  else if any_phrase starter_phrases t then
    (Ok CasualTrue, set_active true (spoken w (starter_reply r)))
  else if any_phrase exit_phrases t then (Ok CasualExit, spoken w farewell)
  else (Ok CasualFalse, w).
Proof.
  unfold handle_casual_commands. cbv zeta.
  repeat (destruct (any_phrase _ _);
          [cbv [bind ret modify choice status_responses CONVERSATION_STARTERS length];
           rewrite speak_run; reflexivity|]).
  reflexivity.
Qed.

(** ** Theorems about the phrase lists *)

(** ["hey argon"] and ["hello argon"] contain ["argon"]: the wake test
    is "the text contains argon". *)
Lemma wake_words_argon t : any_phrase wake_words t = Str.contains "argon" t.
Proof.
  unfold any_phrase, wake_words. cbn [existsb].
  destruct (Str.contains "argon" t) eqn:E; [reflexivity|]. simpl.
  destruct (Str.contains "hey argon" t) eqn:E1.
  { rewrite (Str.contains_trans "argon" "hey argon" t eq_refl E1) in E. discriminate. }
  destruct (Str.contains "hello argon" t) eqn:E2; [|reflexivity].
  rewrite (Str.contains_trans "argon" "hello argon" t eq_refl E2) in E. discriminate.
Qed.

(** C16 [handle_wake_word_iff_argon]: [handle_wake_word] fires (returns
    [True], sets [conversation_active], speaks) exactly when the
    lower-cased utterance contains ["argon"] anywhere: the longer wake
    phrases add nothing, and ["bye argon"] or ["jargon"] wake the
    assistant as well. *)
Theorem handle_wake_word_iff_argon r text w :
  fst (handle_wake_word r text w) = Ok true <->
  Str.contains "argon" (Str.lower text) = true.
Proof.
  rewrite handle_wake_word_run, wake_words_argon.
  destruct (Str.contains "argon" _); split; intros H; try reflexivity; discriminate H.
Qed.

Example handle_wake_word_iff_argon_jargon :
  fst (handle_wake_word 0 "Too much jargon" init_world) = Ok true.
Proof. apply handle_wake_word_iff_argon. reflexivity. Defined.

(** C17 [exit_shadowed_by_time]: the time test of
    [handle_casual_commands] comes before the exit test and matches the
    bare substring ["time"], so an utterance whose lower-cased text
    contains ["time"] (["see you next time"]) is answered with the time:
    the handler speaks ["It's <time> right now."], sets
    [conversation_active], changes nothing else, and returns [True],
    never ["EXIT"]. *)
Theorem exit_shadowed_by_time clk r text w :
  Str.contains "time" (Str.lower text) = true ->
  handle_casual_commands clk r text w =
  (Ok CasualTrue, set_active true (spoken w ("It's " ++ time_I_M_p clk ++ " right now."))).
Proof.
  intros Ht. rewrite handle_casual_commands_run. cbv zeta.
  replace (any_phrase time_phrases (Str.lower text)) with true; [reflexivity|].
  unfold any_phrase. simpl. now rewrite Ht, orb_true_r.
Qed.

Example exit_shadowed_by_time_witness :
  let clk := mkClock "10:30 AM" "Monday, June 02, 2025" "Monday, June 02" in
  Str.contains "time" (Str.lower "See you next time") = true /\
  handle_casual_commands clk 0 "See you next time" init_world =
  (Ok CasualTrue, set_active true (spoken init_world "It's 10:30 AM right now.")).
Proof.
  intros clk. split; [reflexivity|].
  apply (exit_shadowed_by_time clk 0 "See you next time" init_world). reflexivity.
Defined.
