(* ===== verification/TurnLoop.v ===== *)
(** * TurnLoop: [main] (src/Argon.py, lines 242-277)

    [main] prints a banner, speaks a greeting, and loops forever: one
    [listen], then the wake-word handler, then the casual commands, and
    otherwise the language model when a conversation is active (or the
    utterance has more than one word, which activates it).  The loop
    ends only when [handle_casual_commands] returns ["EXIT"], or when an
    exception escapes [listen].

    [env] is what the outside world supplies to one iteration: what the
    microphone and Whisper did, the clock, the random index, and what
    the language-model process does with a prompt.  [turn] is the body
    of the loop, [main_loop] runs it over a finite list of inputs (the
    list is the fuel: the real loop has no bound), and [main] adds the
    start-up.  [turn_step] is the loop as a step relation on worlds and
    [reachable] its reachable states.

    The theorems show that a turn does what the abstract classifier
    [Router.route] says, that the reachable states keep the history
    well formed with playback idle, that [conversation_active] is never
    cleared, that the loop ends at the first exit utterance, and that a
    capture failure ends the program with an exception. *)

From S2P Require Import Prelude PyStr World Speech Filter Context Session Router.
From Stdlib Require Import String Ascii List Bool Arith ZArith Lia Relations RelationClasses.
Import ListNotations.

Local Open Scope string_scope.
Local Open Scope nat_scope.

(** What the environment supplies to one iteration of the loop. *)
Record env : Type := mkEnv {
  env_capture : capture;
  env_clock : clock;
  env_rand : nat;
  env_backend : string -> backend_result
}.

(** [continue] or [break]. *)
Inductive loop_ctl : Type :=
| LoopContinue
| LoopBreak.

(** Lines 270-271: engage dialogue on more than one word. *)
Definition engage (user_text : string) : M unit :=
  w <- read_state ;;
  if negb (conversation_active w) && (1 <? length (Str.split user_text))
  then modify (set_active true) else ret tt.

(** Lines 274-277. *)
Definition respond (e : env) (user_text : string) : M unit :=
  w <- read_state ;;
  if conversation_active w then
    reply <- ask_gemma (env_clock e) (env_rand e) (env_backend e) user_text ;;
    if Str.is_empty reply then ret tt else speak reply
  else ret tt.

(** Lines 254-277: the body of [while True]. *)
Definition turn (e : env) : M loop_ctl :=
  user_text <- listen (env_capture e) ;;
  if Str.is_empty user_text || (String.length (Str.strip user_text) =? 0)
  then ret LoopContinue
  else
    woke <- handle_wake_word (env_rand e) user_text ;;
    if woke then ret LoopContinue
    else
      result <- handle_casual_commands (env_clock e) (env_rand e) user_text ;;
      match result with
      | CasualExit => ret LoopBreak
      | CasualTrue => ret LoopContinue
      | CasualFalse => engage user_text ;; respond e user_text ;; ret LoopContinue
      end.

(** How the loop over a finite list of inputs ended. *)
Inductive run_end : Type :=
| Exited            (** [break] at an exit phrase *)
| InputExhausted.   (** still running when the inputs ran out *)

Fixpoint main_loop (es : list env) : M run_end :=
  match es with
  | [] => ret InputExhausted
  | e :: es' =>
      c <- turn e ;;
      match c with
      | LoopBreak => ret Exited
      | LoopContinue => main_loop es'
      end
  end.

Fixpoint repeat_string (n : nat) (s : string) : string :=
  match n with
  | 0 => EmptyString
  | S n' => s ++ repeat_string n' s
  end.

(** Lines 244-251. *)
Definition startup : M unit :=
  let rule := repeat_string 40 "=" in
  print rule ;;
  print "ARGON - AI Assistant" ;;
  print rule ;;
  print "Say 'Hey Argon' to start" ;;
  print "Say 'go offline' to exit" ;;
  print rule ;;
  speak "Hello, I'm Argon.".

Definition main (es : list env) : M run_end :=
  startup ;; main_loop es.

(** ** The loop as a step relation *)

Inductive turn_step : World -> World -> Prop :=
| turn_step_continue e w w' :
    turn e w = (Ok LoopContinue, w') -> turn_step w w'.

Inductive reachable : World -> Prop :=
| reachable_start w : startup init_world = (Ok tt, w) -> reachable w
| reachable_step w w' : reachable w -> turn_step w w' -> reachable w'.

(** ** How a world can evolve *)

(** One successful exchange recorded in the history. *)
Definition exchange_step (h h' : list string) : Prop :=
  exists u a, h' = record_exchange u a h.

(** What any part of the program can do to the world: record
    exchanges, set (never clear) [conversation_active], leave the
    playback flags either cleared or as they were, and append to the
    trace. *)
Record evolves (w w' : World) : Prop := {
  ev_history : clos_refl_trans _ exchange_step (conversation_history w) (conversation_history w');
  ev_active : conversation_active w = true -> conversation_active w' = true;
  ev_speaking : is_speaking w' = false \/ is_speaking w' = is_speaking w;
  ev_interrupt : interrupt_requested w' = false \/ interrupt_requested w' = interrupt_requested w;
  ev_out : exists sfx, out w' = (out w ++ sfx)%list
}.

#[export] Instance evolves_preorder : PreOrder evolves.
Proof.
  split.
  - intros w. split; auto using rt_refl. exists []. now rewrite app_nil_r.
  - intros w1 w2 w3 [H12 A12 S12 I12 [o12 O12]] [H23 A23 S23 I23 [o23 O23]].
    split; eauto using rt_trans.
    + destruct S23 as [-> | ->]; auto.
    + destruct I23 as [-> | ->]; auto.
    + exists (o12 ++ o23)%list. now rewrite O23, O12, app_assoc.
Qed.

Lemma evolves_emit ev w : evolves w (emit ev w).
Proof. split; auto using rt_refl. now exists [ev]. Qed.

Lemma evolves_set_active_true w : evolves w (set_active true w).
Proof. split; auto using rt_refl. exists []. now rewrite app_nil_r. Qed.

Lemma evolves_spoken w reply : evolves w (spoken w reply).
Proof. split; auto using rt_refl. eexists. reflexivity. Qed.

Lemma speak_evolves reply : respects evolves (speak reply).
Proof. intros w r w'. rewrite speak_run. intros [= _ <-]. apply evolves_spoken. Qed.

Lemma ask_gemma_evolves clk r backend prompt : respects evolves (ask_gemma clk r backend prompt).
Proof.
  intros w res w'. rewrite ask_gemma_unfold. cbv zeta.
  assert (E1 : evolves w (emit (Print (thinking_pick r)) (set_active true w)))
    by (etransitivity; [apply evolves_set_active_true | apply evolves_emit]).
  destruct (backend _) as [rc stdout | |]; [destruct (Z.eqb rc 0)|..];
    intros [= _ <-]; try exact E1.
  etransitivity; [exact E1|].
  split; cbn; auto using rt_refl.
  - apply rt_step. eexists _, _. reflexivity.
  - exists []. now rewrite app_nil_r.
Qed.

#[export] Hint Resolve evolves_emit evolves_set_active_true speak_evolves ask_gemma_evolves : argon.

Ltac evolves_leaf :=
  first
    [ apply respects_modify; intros; solve [auto with argon]
    | solve [auto with argon]
    | progress unfold print, os_system, choice, listen, handle_wake_word,
        handle_casual_commands, engage, respond ].

(** Every turn, whatever it returns or raises, makes the world
    evolve. *)
Lemma turn_evolves e : respects evolves (turn e).
Proof. unfold turn. respects_tac evolves_leaf. Qed.

(** ** Which turns can raise *)

Lemma speak_total reply : total (speak reply).
Proof. intros w. exists tt, (spoken w reply). apply speak_run. Qed.

Lemma ask_gemma_total clk r backend prompt : total (ask_gemma clk r backend prompt).
Proof.
  intros w. rewrite ask_gemma_unfold. cbv zeta.
  destruct (backend _) as [rc stdout | |]; [destruct (Z.eqb rc 0)|..]; eexists _, _; reflexivity.
Qed.

Lemma choice_total xs r : xs <> [] -> total (choice xs r).
Proof. intros Hne w. destruct (choice_in xs r w Hne) as (x & E & _). eauto. Qed.

Ltac total_leaf :=
  first
    [ apply speak_total
    | apply ask_gemma_total
    | apply choice_total; discriminate
    | progress unfold print, os_system, handle_wake_word, handle_casual_commands,
        engage, respond ].

(** Once [listen] has returned, the rest of the turn raises nothing. *)
Lemma turn_total e :
  env_capture e <> MicUnavailable -> env_capture e <> CaptureFailed -> total (turn e).
Proof.
  intros H1 H2. unfold turn. apply total_bind.
  - unfold listen. destruct (env_capture e); try congruence; total_tac total_leaf.
  - intros t. total_tac total_leaf.
Qed.

(** ** Running a turn on a heard utterance *)

Lemma turn_heard e raw t w :
  env_capture e = Transcribed raw -> transcript_filter raw = Some t ->
  turn e w =
  (woke <- handle_wake_word (env_rand e) t ;;
   if woke then ret LoopContinue
   else
     result <- handle_casual_commands (env_clock e) (env_rand e) t ;;
     match result with
     | CasualExit => ret LoopBreak
     | CasualTrue => ret LoopContinue
     | CasualFalse => engage t ;; respond e t ;; ret LoopContinue
     end) (heard w t).
Proof.
  intros Hc Hf. unfold turn. rewrite Hc.
  rewrite (bind_Ok _ _ _ _ _ (listen_heard _ _ w Hf)).
  now rewrite (transcript_filter_nonblank _ _ Hf).
Qed.

(** The backend's answer to the prompt [ask_gemma] builds from [w]. *)
Definition backend_outcome (e : env) (t : string) (w : World) : backend_result :=
  env_backend e (build_prompt (system_prompt (env_clock e)) t (conversation_history w)).

Lemma respond_run e t w :
  conversation_active w = true ->
  exists w', respond e t w = (Ok tt, w') /\ conversation_active w' = true /\
    conversation_history w' =
    snd (dialogue_outcome t (backend_outcome e t w) (conversation_history w)).
Proof.
  intros Ha. unfold respond. rewrite (bind_Ok _ _ w w w) by reflexivity. rewrite Ha.
  destruct (ask_gemma (env_clock e) (env_rand e) (env_backend e) t w) as [[reply|ex] w2] eqn:Eg.
  2: { rewrite ask_gemma_unfold in Eg. cbv zeta in Eg.
       destruct (env_backend e _) as [rc stdout | |]; try destruct (Z.eqb rc 0); discriminate. }
  rewrite (bind_Ok _ _ _ _ _ Eg).
  rewrite ask_gemma_unfold in Eg. cbv zeta in Eg. unfold backend_outcome, dialogue_outcome.
  destruct (env_backend e _) as [rc stdout | |]; try destruct (Z.eqb rc 0);
    injection Eg as <- <-; destruct (Str.is_empty _); rewrite ?speak_run;
    eexists; repeat split.
Qed.

Lemma engage_run t w :
  engage t w =
  (Ok tt, if negb (conversation_active w) && (1 <? length (Str.split t))
          then set_active true w else w).
Proof. unfold engage, bind, read_state. destruct (_ && _); reflexivity. Qed.

Ltac rewrite_phrases :=
  repeat match goal with
  | H : any_phrase _ _ = _ |- _ => rewrite H
  end.

(** Run the two handlers of a turn on a heard utterance, with the
    phrase tests decided by the hypotheses in context. *)
Ltac turn_run Hc Hf :=
  rewrite (turn_heard _ _ _ _ Hc Hf); unfold bind at 1; rewrite handle_wake_word_run;
  rewrite_phrases; cbv beta iota;
  try (unfold bind at 1; rewrite handle_casual_commands_run; cbv zeta;
       rewrite_phrases; cbv beta iota).

(** ** Theorems *)

(** C1 [turn_refines_route]: one iteration of the loop on an
    utterance that [listen] heard does what the abstract classifier
    [route] of section 4.2 says: an exit phrase breaks the loop and
    leaves the history and [conversation_active] as they were; a wake
    word or a canned command continues with the conversation active
    and the history unchanged; [Continue] changes nothing but the
    listening trace; [Dialogue] activates the conversation and leaves
    the history the session specification gives for the backend's
    answer to the prompt built from the current history. *)
Theorem turn_refines_route e raw t w :
  env_capture e = Transcribed raw -> transcript_filter raw = Some t ->
  match route t (conversation_active w) with
  | Exit => exists w', turn e w = (Ok LoopBreak, w') /\
      conversation_history w' = conversation_history w /\
      conversation_active w' = conversation_active w
  | Continue => turn e w = (Ok LoopContinue, heard w t)
  | Dialogue => exists w', turn e w = (Ok LoopContinue, w') /\
      conversation_active w' = true /\
      conversation_history w' =
      snd (dialogue_outcome t (backend_outcome e t w) (conversation_history w))
  | _ => exists w', turn e w = (Ok LoopContinue, w') /\
      conversation_history w' = conversation_history w /\
      conversation_active w' = true
  end.
Proof.
  intros Hc Hf. unfold route.
  destruct (any_phrase wake_words (Str.lower t)) eqn:?;
    [turn_run Hc Hf; eexists; repeat split|].
  do 5 (match goal with |- context [if any_phrase ?l (Str.lower t) then _ else _] =>
          destruct (any_phrase l (Str.lower t)) eqn:?;
          [turn_run Hc Hf; eexists; repeat split|] end).
  destruct (conversation_active w) eqn:Ea; [|destruct (1 <? length (Str.split t)) eqn:El];
    cbn [orb]; turn_run Hc Hf; rewrite (bind_Ok _ _ _ _ _ (engage_run _ _));
    cbn [conversation_active heard emit]; rewrite ?Ea, ?El; cbn [negb andb].
  - destruct (respond_run e t (heard w t) Ea) as (w' & Er & Ea' & Eh').
    rewrite (bind_Ok _ _ _ _ _ Er). eexists. repeat split; assumption.
  - destruct (respond_run e t (set_active true (heard w t)) eq_refl) as (w' & Er & Ea' & Eh').
    rewrite (bind_Ok _ _ _ _ _ Er). eexists. repeat split; assumption.
  - unfold respond, bind, read_state, ret. cbn. rewrite ?Ea. reflexivity.
Qed.

Lemma startup_evolves : respects evolves startup.
Proof. unfold startup. respects_tac evolves_leaf. Qed.

Lemma main_loop_evolves es : respects evolves (main_loop es).
Proof.
  induction es as [|e es IH]; simpl;
    respects_tac ltac:(first [apply turn_evolves | exact IH | evolves_leaf]).
Qed.

(** The state invariant of the loop. *)
Definition loop_inv (w : World) : Prop :=
  flat_wf (conversation_history w) /\ is_speaking w = false /\ interrupt_requested w = false.

Lemma flat_wf_rt h h' : clos_refl_trans _ exchange_step h h' -> flat_wf h -> flat_wf h'.
Proof.
  induction 1 as [h h' (u & a & ->) | | ]; auto using flat_wf_record.
Qed.

Lemma evolves_inv w w' : loop_inv w -> evolves w w' -> loop_inv w'.
Proof.
  intros (Hh & Hs & Hi) [Eh _ Es Ei _]. split; [exact (flat_wf_rt _ _ Eh Hh)|].
  split; [destruct Es as [-> | ->] | destruct Ei as [-> | ->]]; auto.
Qed.

Lemma loop_inv_init : loop_inv init_world.
Proof. split; [exists []; split; [reflexivity | apply le_0_n] | split; reflexivity]. Qed.

Lemma route_exit_any t a b : route t a = Exit -> route t b = Exit.
Proof. unfold route. case_ifs; congruence. Qed.

Lemma turn_exit e raw t w :
  env_capture e = Transcribed raw -> transcript_filter raw = Some t ->
  route t (conversation_active w) = Exit -> exists w', turn e w = (Ok LoopBreak, w').
Proof.
  intros Hc Hf. unfold route. case_ifs; intros Hr; try discriminate Hr.
  turn_run Hc Hf. eexists. reflexivity.
Qed.

(** A sample environment for the witnesses. *)
Definition sample_clock : clock := mkClock "10:30 AM" "Monday, June 02, 2025" "Monday, June 02".
Definition sample_env (c : capture) : env :=
  mkEnv c sample_clock 0 (fun _ => Completed 0%Z " Sure, here it is. ").

Example turn_refines_route_witness :
  let e := sample_env (Transcribed " Tell me about the moon ") in
  env_capture e = Transcribed " Tell me about the moon " /\
  transcript_filter " Tell me about the moon " = Some "Tell me about the moon" /\
  exists w', turn e init_world = (Ok LoopContinue, w') /\
    conversation_active w' = true /\
    conversation_history w' =
    snd (dialogue_outcome "Tell me about the moon"
           (backend_outcome e "Tell me about the moon" init_world) []).
Proof.
  intros e. split; [reflexivity|]. split; [vm_compute; reflexivity|].
  exact (turn_refines_route e " Tell me about the moon " "Tell me about the moon" init_world
           eq_refl ltac:(vm_compute; reflexivity)).
Defined.

(** C3 [reachable_inv]: every state the program reaches (after
    start-up, then any number of turns that continue the loop) has a
    well-formed history (the flattening of at most four exchanges) and
    playback idle: [is_speaking] and [interrupt_requested] are false
    between turns. *)
Theorem reachable_inv w :
  reachable w ->
  flat_wf (conversation_history w) /\ is_speaking w = false /\ interrupt_requested w = false.
Proof.
  induction 1 as [w Hs | w w' Hr IH Hst].
  - exact (evolves_inv _ _ loop_inv_init (startup_evolves _ _ _ Hs)).
  - destruct Hst as [e w1 w2 Ht]. exact (evolves_inv _ _ IH (turn_evolves _ _ _ _ Ht)).
Qed.

Example reachable_inv_witness :
  let w0 := snd (startup init_world) in
  reachable w0 /\
  (flat_wf (conversation_history w0) /\ is_speaking w0 = false /\ interrupt_requested w0 = false).
Proof.
  intros w0. assert (R : reachable w0) by (apply reachable_start; reflexivity).
  split; [exact R | exact (reachable_inv w0 R)].
Defined.

(** C15 [active_never_cleared]: nothing in the program clears
    [conversation_active]: once a conversation is active it stays
    active for the rest of any run of the loop, whether the run ends
    at an exit phrase, raises, or goes on (the specification says the
    flag is cleared on exit; the code never does). *)
Theorem active_never_cleared es w r w' :
  main_loop es w = (r, w') -> conversation_active w = true -> conversation_active w' = true.
Proof. intros H. exact (ev_active _ _ (main_loop_evolves es w r w' H)). Qed.

Example active_never_cleared_witness :
  let w := set_active true init_world in
  let es := [sample_env (Transcribed "go offline")] in
  main_loop es w = (Ok Exited, snd (main_loop es w)) /\ conversation_active w = true /\
  conversation_active (snd (main_loop es w)) = true.
Proof.
  intros w es. assert (E : main_loop es w = (Ok Exited, snd (main_loop es w))) by reflexivity.
  split; [exact E|]. split; [reflexivity|].
  exact (active_never_cleared es w (Ok Exited) _ E eq_refl).
Defined.

(** C6 [turn_raises_iff]: a turn raises an exception exactly when
    the microphone cannot be opened or the capture fails; every failure
    of the transcription or of the language-model process is handled
    inside the turn.  The exceptions that do escape are not caught by
    [main], so they end the program (section 7 of the specification
    says no capture failure may). *)
Theorem turn_raises_iff e w :
  (exists ex w', turn e w = (Raised ex, w')) <->
  env_capture e = MicUnavailable \/ env_capture e = CaptureFailed.
Proof.
  split.
  - intros (ex & w' & H).
    destruct (env_capture e) eqn:Ec; auto; exfalso;
      destruct (turn_total e ltac:(congruence) ltac:(congruence) w) as (c & w1 & E); congruence.
  - intros [Ec | Ec]; unfold turn; rewrite Ec; eexists _, _; reflexivity.
Qed.

(** C7 [main_loop_exits]: the loop ends normally at an exit
    utterance: after any turns that hear, time out or fail to
    transcribe (no capture failure), an utterance that routes to
    [Exit] ends [main_loop] with [Exited], whatever inputs would have
    followed and whatever the earlier turns did to the state. *)
Theorem main_loop_exits es1 e es2 raw t w :
  Forall (fun e' => env_capture e' <> MicUnavailable /\ env_capture e' <> CaptureFailed) es1 ->
  env_capture e = Transcribed raw -> transcript_filter raw = Some t -> route t false = Exit ->
  exists w', main_loop (es1 ++ e :: es2) w = (Ok Exited, w').
Proof.
  intros Hs Hc Hf Hr. revert w. induction Hs as [|e' es1 [H1 H2] Hs IH]; intros w; simpl.
  - destruct (turn_exit e raw t w Hc Hf (route_exit_any _ _ _ Hr)) as (w' & E).
    rewrite (bind_Ok _ _ _ _ _ E). eexists. reflexivity.
  - destruct (turn_total e' H1 H2 w) as ([|] & w1 & E); rewrite (bind_Ok _ _ _ _ _ E);
      [apply IH | eexists; reflexivity].
Qed.

Example main_loop_exits_witness :
  let es1 := [sample_env (Transcribed "Hey Argon"); sample_env ListenTimeout;
              sample_env (Transcribed "tell me about the moon")] in
  Forall (fun e' => env_capture e' <> MicUnavailable /\ env_capture e' <> CaptureFailed) es1 /\
  exists w', main_loop (es1 ++ sample_env (Transcribed "go offline") :: []) init_world = (Ok Exited, w').
Proof.
  intros es1. split.
  - repeat constructor; discriminate.
  - apply (main_loop_exits es1 (sample_env (Transcribed "go offline")) [] "go offline" "go offline");
      [repeat constructor; discriminate | reflexivity | vm_compute; reflexivity | vm_compute; reflexivity].
Defined.
